(** * StackTrace: symbol cache, stack resolver and terminate path

    A shallow embedding of the parts of [StackTrace.cpp], [StackTrace.h]
    and [Utilities.cpp] that the specification talks about, together with
    the properties that hold (or fail) on them.

    Conventions.
    - [size_t], [void *] and [unsigned long] are 64-bit: a value is a [Z]
      in [0, 2^64) and arithmetic is wrapped with [wrap64].
    - A [std::vector<T>] is a [list T]; [operator[]] outside the vector is
      undefined behaviour and shows up as the result [OutOfBounds].
    - A C string is a [string]; the C library only sees it up to the first
      NUL character ([c_str]).
    - The operating system (pipes, the loader, allocation failures) is an
      explicit environment argument. *)

From Stdlib Require Import ZArith Ascii String List Lia Bool.
From Stdlib Require HexString.
From stdpp Require Import base tactics option list strings.

Local Open Scope string_scope.
Local Open Scope list_scope.
Local Open Scope Z_scope.

#[local] Arguments String.append !_ _ / : simpl nomatch.

(** ** Results of code that may leave the defined behaviour *)

Inductive outcome (A : Type) : Type :=
| Done (a : A)        (* normal return *)
| OutOfBounds         (* an element access outside a vector or buffer *)
| Spin.               (* a loop that did not finish within its fuel *)
Arguments Done {A} a.
Arguments OutOfBounds {A}.
Arguments Spin {A}.

Definition obind {A B} (m : outcome A) (k : A -> outcome B) : outcome B :=
  match m with
  | Done a => k a
  | OutOfBounds => OutOfBounds
  | Spin => Spin
  end.

Notation "'do' x <- m ; k" := (obind m (fun x => k))
  (at level 10, x name, m at level 100, k at level 200, only parsing).

(** What a call hands to its caller: a value, or a [std::bad_alloc] that
    nothing in the function catches. *)
Inductive completion (A : Type) : Type :=
| Returns (a : A)
| Throws.
Arguments Returns {A} a.
Arguments Throws {A}.

(** ** Machine integers *)

Definition wrap64 (z : Z) : Z := z mod 2 ^ 64.

(** [X.size()] *)
Definition size {A} (X : list A) : Z := Z.of_nat (length X).

(** libstdc++'s [vector<void *>::max_size()] on LP64: [PTRDIFF_MAX / 8]. *)
Definition vector_max_size : Z := (2 ^ 63 - 1) / 8.

Definition vector_ok {A} (X : list A) : Prop := size X <= vector_max_size.

(** [X[i]] for a [size_t] index. *)
Definition at_ {A} (X : list A) (i : Z) : outcome A :=
  if (i <? 0) then OutOfBounds
  else match X !! Z.to_nat i with
       | Some x => Done x
       | None => OutOfBounds
       end.

(** ** findfirst (StackTrace.cpp 149-168, Utilities.cpp) *)

(** The [while ( ( upper - lower ) != 1 )] loop.  One unit of fuel is one
    iteration. *)
Fixpoint findfirst_loop (fuel : nat) (X : list Z) (Y : Z) (lower upper : Z)
  : outcome Z :=
  if (wrap64 (upper - lower) =? 1) then Done upper
  else match fuel with
       | O => Spin
       | S fuel' =>
           let value := wrap64 (upper + lower) / 2 in
           do xv <- at_ X value;
           if (Y <=? xv) then findfirst_loop fuel' X Y lower value
           else findfirst_loop fuel' X Y value upper
       end.

Definition findfirst (X : list Z) (Y : Z) : outcome Z :=
  match X with
  | [] => Done 0
  | _ :: _ =>
      let lower := 0 in
      let upper := wrap64 (size X - 1) in
      do xl <- at_ X lower;
      if (Y <=? xl) then Done lower
      else
        do xu <- at_ X upper;
        if (xu <? Y) then Done upper
        else findfirst_loop (length X) X Y lower upper
  end.

(** ** C strings and the C library calls the sources use *)

Definition NUL : ascii := "000"%char.
Definition LF : ascii := "010"%char.
Definition SP : ascii := " "%char.

(** The text a C function sees in a buffer: everything before the first
    NUL. *)
Fixpoint c_str (s : string) : string :=
  match s with
  | EmptyString => EmptyString
  | String c r => if Ascii.eqb c NUL then EmptyString else String c (c_str r)
  end.

(** [p = strchr( s, ch ); p[0] = 0; p++;] on a C string [s]: the text
    before the first [ch] and the text after it, or [None] when [strchr]
    returns a null pointer. *)
Fixpoint strchr (s : string) (ch : ascii) : option (string * string) :=
  match s with
  | EmptyString => None
  | String c r =>
      if Ascii.eqb c ch then Some (EmptyString, r)
      else match strchr r ch with
           | Some (before, after) => Some (String c before, after)
           | None => None
           end
  end.

(** [s[0]] of a C string (the terminating NUL when it is empty). *)
Definition first_char (s : string) : ascii :=
  match s with
  | EmptyString => NUL
  | String c _ => c
  end.

Definition isspace (c : ascii) : bool :=
  let n := nat_of_ascii c in
  ((n =? 32) || ((9 <=? n) && (n <=? 13)))%nat.

Fixpoint skip_spaces (s : string) : string :=
  match s with
  | EmptyString => EmptyString
  | String c r => if isspace c then skip_spaces r else s
  end.

(** Value of the longest prefix of hexadecimal digits. *)
Fixpoint hex_digits (s : string) (acc : Z) : Z :=
  match s with
  | EmptyString => acc
  | String c r =>
      match HexString.ascii_to_digit c with
      | Some d => hex_digits r (16 * acc + Z.of_N d)
      | None => acc
      end
  end.

Definition ULONG_MAX : Z := 2 ^ 64 - 1.

(** [strtoul( s, nullptr, 16 )]: blanks, an optional sign, an optional
    [0x], then digits; [ULONG_MAX] on overflow, negation modulo [2^64]. *)
Definition strtoul16 (s : string) : Z :=
  let s1 := skip_spaces (c_str s) in
  let '(neg, s2) :=
    match s1 with
    | String "-"%char r => (true, r)
    | String "+"%char r => (false, r)
    | _ => (false, s1)
    end in
  let s3 :=
    match s2 with
    | String "0"%char (String "x"%char r) => r
    | String "0"%char (String "X"%char r) => r
    | _ => s2
    end in
  let v := hex_digits s3 0 in
  if (ULONG_MAX <? v) then ULONG_MAX
  else if neg then wrap64 (- v) else v.

(** One call [fgets( buf, n, in )] on a stream that is not at its end:
    the characters stored (at most [n - 1], through the first newline)
    and the rest of the stream. [room] is [n - 1]. *)
Fixpoint fgets_take (room : Z) (s : string) : string * string :=
  match s with
  | EmptyString => (EmptyString, EmptyString)
  | String c r =>
      if (room <=? 0) then (EmptyString, s)
      else if Ascii.eqb c LF then (String c EmptyString, r)
      else let '(l, rest) := fgets_take (room - 1) r in (String c l, rest)
  end.

(** The buffers a [while ( fgets( buf, n, in ) != nullptr )] loop sees.
    Every call takes at least one character, so [String.length s] units
    of fuel reach the end of the stream ([read_lines_all]). *)
Fixpoint read_lines (fuel : nat) (room : Z) (s : string) : list string :=
  match fuel with
  | O => []
  | S fuel' =>
      match s with
      | EmptyString => []
      | _ => let '(l, rest) := fgets_take room s in
             l :: read_lines fuel' room rest
      end
  end.

Definition fgets_loop (n : Z) (s : string) : list string :=
  read_lines (String.length s) (n - 1) s.

(** ** The symbol cache (StackTrace.cpp 171-296) *)

Inductive os := Linux | Mac | Windows.

(** What the preprocessor decides. *)
Record build := {
  target : os;
  gnu_source : bool;     (* _GNU_SOURCE *)
  use_abi : bool;        (* __GNUC__ *)
}.

(** [USE_NM] is defined on Linux and on Darwin. *)
Definition use_nm (cfg : build) : bool :=
  match target cfg with
  | Linux | Mac => true
  | Windows => false
  end.

Record global_symbols_struct := {
  address : list Z;
  type : list ascii;
  obj : list string;
  error : Z;
}.

Definition no_symbols : global_symbols_struct :=
  {| address := []; type := []; obj := []; error := 0 |}.

Definition set_error (e : Z) (d : global_symbols_struct) :=
  {| address := address d; type := type d; obj := obj d; error := e |}.
Definition push_address (a : Z) (d : global_symbols_struct) :=
  {| address := address d ++ [a]; type := type d; obj := obj d;
     error := error d |}.
Definition push_type (t : ascii) (d : global_symbols_struct) :=
  {| address := address d; type := type d ++ [t]; obj := obj d;
     error := error d |}.
Definition push_obj (o : string) (d : global_symbols_struct) :=
  {| address := address d; type := type d; obj := obj d ++ [o];
     error := error d |}.

(** The process-wide variables of StackTrace.cpp. [global_symbols] is an
    ordinary global: no function in the sources writes it, so in a run of
    the library it keeps the empty vectors it starts with. [popen_log] is
    a ghost field: the commands handed to [popen] so far, oldest first. *)
Record program_state := {
  loaded : bool;                         (* static in getSymbols2 *)
  data : global_symbols_struct;          (* static in getSymbols2 *)
  global_symbols : global_symbols_struct;
  global_exe_name : string;
  getSymbols_mutex : bool;               (* true while locked *)
  popen_log : list string;
}.

(** The state at program start: statics and globals are zero-initialised
    and [global_exe_name] holds the result of [getExecutable()]. *)
Definition initial_state (exe : string) : program_state :=
  {| loaded := false; data := no_symbols; global_symbols := no_symbols;
     global_exe_name := exe; getSymbols_mutex := false; popen_log := [] |}.

(** What [dladdr] fills in when it succeeds; [dli_fname] is then a valid
    C string. *)
Record dl_info := {
  dli_fname : string;
  dli_fbase : Z;
  dli_sname : option string;             (* [None]: a null pointer *)
}.

(** The operating system as one call of the library sees it.
    - [popen_out cmd]: the output of the child process, [None] when
      [popen] returns a null pointer;
    - [bad_alloc]: [None] when no allocation fails, [Some k] when the
      allocation after [k] successful ones throws [std::bad_alloc] (the
      one failure of the call: the allocations after it succeed);
    - [stack_bytes]: what an uninitialised local array holds;
    - [dladdr a]: the loader's answer for [a], [None] when [dladdr]
      returns 0;
    - [cxa_demangle n]: the demangled name when [abi::__cxa_demangle]
      sets [status] to 0 and returns a buffer, [None] otherwise. *)
Record world := {
  popen_out : string -> option string;
  bad_alloc : option nat;
  stack_bytes : list ascii;
  dladdr : Z -> option dl_info;
  cxa_demangle : option string -> option string;
}.

(** One allocation: [None] when it throws, otherwise the oracle for the
    allocations that follow. After a throw the oracle is spent: it is
    [None] for whatever runs next. *)
Definition allocate (f : option nat) : option (option nat) :=
  match f with
  | None => Some None
  | Some O => None
  | Some (S k) => Some (Some k)
  end.

(** The body of the parse loop up to the three [push_back]s: [None] for a
    line the loop skips with [continue]. *)
Definition parse_line (buf : string) : option (Z * ascii * string) :=
  let a := c_str buf in
  if Ascii.eqb (first_char a) SP then None
  else match strchr a SP with
       | None => None
       | Some (a', b) =>
           match strchr b SP with
           | None => None
           | Some (b', c) =>
               let c' := match strchr c LF with
                         | Some (name, _) => name
                         | None => c
                         end in
               Some (strtoul16 a', first_char b', c')
           end
       end.

(** The [while ( fgets( ... ) )] loop over the buffers read. The result
    carries the table, whether an exception left the loop, and the
    allocation oracle as the loop leaves it. *)
Fixpoint nm_loop (bufs : list string) (f : option nat)
    (d : global_symbols_struct)
  : global_symbols_struct * bool * option nat :=
  match bufs with
  | [] => (d, false, f)
  | buf :: rest =>
      match parse_line buf with
      | None => nm_loop rest f d
      | Some (add, ty, name) =>
          match allocate f with
          | None => (d, true, None)
          | Some f1 =>
              let d1 := push_address add d in
              match allocate f1 with
              | None => (d1, true, None)
              | Some f2 =>
                  let d2 := push_type ty d1 in
                  match allocate f2 with
                  | None => (d2, true, None)
                  | Some f3 => nm_loop rest f3 (push_obj name d2)
                  end
              end
          end
      end
  end.

Definition nm_command (cfg : build) (exe : string) : string :=
  match target cfg with
  | Mac => "nm -n " +:+ c_str exe +:+ " | c++filt"
  | _ => "nm -n --demangle " +:+ c_str exe
  end.

(** [sprintf( cmd, ... )] into [char cmd[1024]] stays inside the array. *)
Definition cmd_fits (cfg : build) (exe : string) : bool :=
  (Z.of_nat (String.length (nm_command cfg exe)) <? 1024).

(** The [try] block and what follows it, entered with the mutex held and
    [loaded] already set. The Boolean tells whether the mutex is released
    on the way out (the [return data] after a failed [popen] skips the
    [unlock]); the last component is the allocation oracle as the load
    leaves it. *)
Definition load_symbols (cfg : build) (w : world) (exe : string)
    (d : global_symbols_struct)
  : outcome (global_symbols_struct * list string * bool * option nat) :=
  if use_nm cfg then
    if cmd_fits cfg exe then
      let cmd := nm_command cfg exe in
      match popen_out w cmd with
      | None => Done (set_error (-2) d, [cmd], false, bad_alloc w)
      | Some out =>
          let '(d', f') :=
            match allocate (bad_alloc w) with        (* new char[0x100000] *)
            | None => (set_error (-3) d, None)       (* catch ( ... ) *)
            | Some f =>
                let '(d1, threw, f1) :=
                  nm_loop (fgets_loop 0xFFFFF out) f d in
                (if threw then set_error (-3) d1 else d1, f1)
            end in
          Done (set_error 0 d', [cmd], true, f')
      end
    else OutOfBounds
  else Done (set_error (-1) d, [], true, bad_alloc w).

(** [getSymbols2] together with the allocation oracle as it is when the
    function returns. *)
Definition getSymbols2_run (cfg : build) (w : world) (st : program_state)
  : outcome (program_state * option nat) :=
  if loaded st then Done (st, bad_alloc w)
  else
    do r <- load_symbols cfg w (global_exe_name st) (data st);
    let '(d, cmds, unlocked, f) := r in
    Done ({| loaded := true; data := d;
             global_symbols := global_symbols st;
             global_exe_name := global_exe_name st;
             getSymbols_mutex := negb unlocked;
             popen_log := popen_log st ++ cmds |}, f).

Definition getSymbols2 (cfg : build) (w : world) (st : program_state)
  : outcome program_state :=
  do r <- getSymbols2_run cfg w st;
  Done r.1.

(** [X = Y] for two vectors. Copying an empty vector allocates nothing; a
    vector with elements needs storage in the caller's vector, which is
    taken to have no spare capacity: one allocation, one point at which
    [std::bad_alloc] can be thrown. *)
Definition copy_assign {A} (Y : list A) (f : option nat)
  : option (option nat) :=
  match Y with
  | [] => Some f
  | _ :: _ => allocate f
  end.

(** What [getSymbols] hands back when it returns: the three vectors and
    the code. *)
Definition getSymbols_result (d : global_symbols_struct)
  : list Z * list ascii * list string * Z :=
  (address d, type d, obj d, error d).

(** [StackTrace::getSymbols]: the three vectors copied out and the
    returned code. The copy-assignments are outside any [try] block: an
    allocation that fails there leaves the function as [std::bad_alloc],
    with the statics of [getSymbols2] as the load left them. *)
Definition getSymbols (cfg : build) (w : world) (st : program_state)
  : outcome (program_state *
             completion (list Z * list ascii * list string * Z)) :=
  do r <- getSymbols2_run cfg w st;
  let '(st', f) := r in
  let d := data st' in
  match copy_assign (address d) f with           (* address = data.address *)
  | None => Done (st', Throws)
  | Some f1 =>
      match copy_assign (type d) f1 with         (* type = data.type *)
      | None => Done (st', Throws)
      | Some f2 =>
          match copy_assign (obj d) f2 with      (* obj = data.obj *)
          | None => Done (st', Throws)
          | Some _ => Done (st', Returns (getSymbols_result d))
          end
      end
  end.

(** ** stack_info (StackTrace.h 894-923)

    The strings are [std::string]s, as StackTrace.cpp uses them. The field
    [address] is called [address_] here, the plain name being taken by the
    vector of the symbol table. *)

Record stack_info := {
  line : Z;              (* uint8_t *)
  address_ : Z;          (* void *address *)
  address2 : Z;          (* void *address2 *)
  object : string;
  filename : string;
  function : string;
}.

(** Modelled from the spec: the default constructor [stack_info()], which
    the header declares and whose body is not in the sources. The data
    model gives a fresh frame no address, line 0 ("unknown") and empty
    strings. *)
Definition stack_info_default : stack_info :=
  {| line := 0; address_ := 0; address2 := 0;
     object := ""; filename := ""; function := "" |}.

Definition set_address (a : Z) (i : stack_info) :=
  {| line := line i; address_ := a; address2 := address2 i;
     object := object i; filename := filename i; function := function i |}.
Definition set_address2 (a : Z) (i : stack_info) :=
  {| line := line i; address_ := address_ i; address2 := a;
     object := object i; filename := filename i; function := function i |}.
Definition set_object (o : string) (i : stack_info) :=
  {| line := line i; address_ := address_ i; address2 := address2 i;
     object := o; filename := filename i; function := function i |}.
Definition set_function (f : string) (i : stack_info) :=
  {| line := line i; address_ := address_ i; address2 := address2 i;
     object := object i; filename := filename i; function := f |}.
Definition set_file_line (f : string) (l : Z) (i : stack_info) :=
  {| line := l; address_ := address_ i; address2 := address2 i;
     object := object i; filename := f; function := function i |}.

(** ** getDataFromGlobalSymbols (StackTrace.cpp 364-374)

    The table that is searched is the global [global_symbols], while the
    table that [getSymbols2] fills is its own static [data]. *)
Definition getDataFromGlobalSymbols (cfg : build) (w : world)
    (st : program_state) (info : stack_info)
  : outcome (program_state * stack_info) :=
  do st' <- getSymbols2 cfg w st;
  if (error (data st') =? 0) then
    do index <- findfirst (address (global_symbols st')) (address_ info);
    if (0 <? index) then
      do o <- at_ (obj (global_symbols st')) (wrap64 (index - 1));
      Done (st', set_object o info)
    else Done (st', set_object (global_exe_name st') info)
  else Done (st', info).

(** ** getFileAndLine (StackTrace.cpp 302-361) *)

(** [char buf[4096]]: always 4096 characters. *)
Definition buf_size : nat := 4096.

Definition fresh_buf (w : world) : list ascii :=
  take buf_size (stack_bytes w ++ replicate buf_size NUL).

(** Writing the C string [s] and its terminator at the start of [buf]. *)
Definition store (s : string) (buf : list ascii) : list ascii :=
  list_ascii_of_string s ++ NUL :: drop (S (String.length s)) buf.

(** The C string that starts at [buf[i]]. *)
Definition cstr_at (buf : list ascii) (i : nat) : string :=
  c_str (string_of_list_ascii (drop i buf)).

(** [%lx] *)
Definition lx (z : Z) : string :=
  match z with
  | Zpos p => HexString.Raw.of_pos p ""
  | _ => "0"
  end.

Definition addr2line_command (o : string) (a : Z) : string :=
  "addr2line -C -e " +:+ c_str o +:+ " -f -i " +:+ lx a +:+ " 2> /dev/null".

(** [s.find( ".so" ) != std::string::npos] *)
Definition find_so (s : string) : bool :=
  match String.index 0 ".so" s with
  | Some _ => true
  | None => false
  end.

(** [fgets( buf, 4095, f )]: the buffer afterwards, whether the call
    returned [buf] (and not a null pointer), and the rest of the stream. *)
Definition fgets (n : Z) (stream : string) (buf : list ascii)
  : list ascii * bool * string :=
  match stream with
  | EmptyString => (buf, false, stream)
  | _ => let '(l, rest) := fgets_take (n - 1) stream in
         (store l buf, true, rest)
  end.

(** [for ( i = 0; i < 4095 && buf[i] != ':'; i++ ) {}] started at [i]. *)
Fixpoint find_colon (buf : list ascii) (i : Z) : Z :=
  match buf with
  | [] => i
  | c :: r =>
      if (4095 <=? i) then i
      else if Ascii.eqb c ":"%char then i
      else find_colon r (i + 1)
  end.

Definition dec_digit (c : ascii) : option Z :=
  let n := Z.of_nat (nat_of_ascii c) in
  if ((48 <=? n) && (n <=? 57))%bool then Some (n - 48) else None.

Fixpoint dec_digits (s : string) (acc : Z) : Z :=
  match s with
  | EmptyString => acc
  | String c r =>
      match dec_digit c with
      | Some d => dec_digits r (10 * acc + d)
      | None => acc
      end
  end.

(** [strtol( s, nullptr, 10 )], clamped to the range of [long]. *)
Definition strtol10 (s : string) : Z :=
  let s1 := skip_spaces (c_str s) in
  let '(neg, s2) :=
    match s1 with
    | String "-"%char r => (true, r)
    | String "+"%char r => (false, r)
    | _ => (false, s1)
    end in
  let v := dec_digits s2 0 in
  if neg then Z.max (- v) (- 2 ^ 63) else Z.min v (2 ^ 63 - 1).

(** Conversion to [int] and to [uint8_t]. *)
Definition to_int (z : Z) : Z := (z + 2 ^ 31) mod 2 ^ 32 - 2 ^ 31.
Definition to_uint8 (z : Z) : Z := z mod 256.

(** [atoi] as the C library implements it: [(int) strtol( s, NULL, 10 )]. *)
Definition atoi (s : string) : Z := to_int (strtol10 s).

(** [s.resize( std::max<size_t>( s.size(), 1 ) - 1 )]: the last character
    goes. *)
Fixpoint drop_last (s : string) : string :=
  match s with
  | EmptyString => EmptyString
  | String c EmptyString => EmptyString
  | String c r => String c (drop_last r)
  end.

Definition getFileAndLine (cfg : build) (w : world) (info : stack_info)
  : outcome stack_info :=
  match target cfg with
  | Linux =>
      let address := if find_so (object info) then address2 info
                     else address_ info in
      let cmd := addr2line_command (object info) address in
      if (Z.of_nat (String.length cmd) <? Z.of_nat buf_size) then
        let buf := store cmd (fresh_buf w) in            (* sprintf *)
        match popen_out w cmd with
        | None => Done info
        | Some f =>
            let buf := take 4095 buf ++ [NUL] in         (* buf[4095] = 0 *)
            (* get function name *)
            let '(buf, rtn, f) := fgets 4095 f buf in
            let info :=
              if (String.eqb (function info) "" && rtn)%bool
              then set_function (drop_last (cstr_at buf 0)) info
              else info in
            (* get file and line *)
            let '(buf, rtn, f) := fgets 4095 f buf in
            do b0 <- at_ buf 0;
            if (negb (Ascii.eqb b0 "?"%char) && negb (Ascii.eqb b0 NUL)
                && rtn)%bool then
              let i := find_colon buf 0 in
              if (i + 1 <? Z.of_nat buf_size) then
                Done (set_file_line
                        (string_of_list_ascii (take (Z.to_nat i) buf))
                        (to_uint8 (atoi (cstr_at buf (Z.to_nat (i + 1)))))
                        info)
              else OutOfBounds                           (* &buf[4096] *)
            else Done info
        end
      else OutOfBounds
  | _ => Done info
  end.

(** ** getStackInfo (StackTrace.cpp 376-408) *)

Definition signed64 (z : Z) : Z := (z + 2 ^ 63) mod 2 ^ 64 - 2 ^ 63.

(** [subtractAddress]: the absolute difference, computed in
    [long long]. *)
Definition subtractAddress (a b : Z) : Z :=
  wrap64 (Z.abs (signed64 (signed64 a - signed64 b))).

Definition getStackInfo (cfg : build) (w : world) (st : program_state)
    (address : Z) : outcome (program_state * stack_info) :=
  let info := set_address address stack_info_default in
  if (gnu_source cfg || match target cfg with Mac => true | _ => false end)%bool
  then
    match dladdr w address with
    | None =>
        do r <- getDataFromGlobalSymbols cfg w st info;
        let '(st', info) := r in
        do info <- getFileAndLine cfg w info;
        Done (st', info)
    | Some dlinfo =>
        let info := set_address2
                      (subtractAddress (address_ info) (dli_fbase dlinfo))
                      info in
        let info := set_object (c_str (dli_fname dlinfo)) info in
        let info :=
          if use_abi cfg then
            match cxa_demangle w (dli_sname dlinfo), dli_sname dlinfo with
            | Some demangled, _ => set_function (c_str demangled) info
            | None, Some sname => set_function (c_str sname) info
            | None, None => info
            end
          else
            match dli_sname dlinfo with
            | Some sname => set_function (c_str sname) info
            | None => info
            end in
        do info <- getFileAndLine cfg w info;
        Done (st, info)
    end
  else
    do r <- getDataFromGlobalSymbols cfg w st info;
    let '(st', info) := r in
    do info <- getFileAndLine cfg w info;
    Done (st', info).

(** ** Utilities::terminate (Utilities.cpp 108-163) *)

Record utilities_build := {
  use_gcov : bool;       (* USE_GCOV *)
  use_mpi : bool;        (* USE_MPI or HAVE_MPI *)
}.

(** The file-level statics of Utilities.cpp. *)
Record abort_state := {
  abort_throwException : bool;
  force_exit : Z;
}.

(** What one call of [terminate] finds: the text [err.what()] formats,
    and the state of MPI. *)
Record abort_world := {
  what : string;
  mpi_initialized : bool;
  mpi_finalized : bool;
  mpi_abort_returns : bool;
}.

(** The calls that leave the function, in program order.
    [clearErrorHandler] comes from ErrorHandlers.h; it is recorded as a
    call and what it does lies outside these sources. *)
Inductive abort_event :=
| terminate_mutex_lock
| terminate_mutex_unlock
| clearErrorHandler
| gcov_dump
| perr (text : string)          (* perr << text *)
| perr_flush
| clearMPIErrorHandler
| MPI_Abort
| std_abort.

Definition callAbort (cfg : utilities_build) : list abort_event :=
  (if use_gcov cfg then [gcov_dump] else [])
    ++ [terminate_mutex_unlock; std_abort].

(** [terminate] does not return: the result is the state of the statics
    and the calls made up to the one that ends the process. *)
Definition terminate (cfg : utilities_build) (w : abort_world)
    (st : abort_state) : abort_state * list abort_event :=
  let entry := [terminate_mutex_lock; clearErrorHandler] in
  if (1 <? force_exit st) then
    (st, entry ++ callAbort cfg)
  else if negb (abort_throwException st) then
    let st' := {| abort_throwException := abort_throwException st;
                  force_exit := 2 |} in
    let printed := [perr (what w)] in
    if (use_mpi cfg && mpi_initialized w && negb (mpi_finalized w))%bool then
      if mpi_abort_returns w then
        (st', entry ++ printed ++ [clearMPIErrorHandler; MPI_Abort]
                ++ callAbort cfg)
      else (st', entry ++ printed ++ [clearMPIErrorHandler; MPI_Abort])
    else (st', entry ++ printed ++ callAbort cfg)
  else
    (st, entry ++ [perr (what w); perr_flush] ++ callAbort cfg).

(** What reached the error stream. *)
Fixpoint error_stream (evs : list abort_event) : list string :=
  match evs with
  | [] => []
  | perr text :: rest => text :: error_stream rest
  | _ :: rest => error_stream rest
  end.

(** ** GetModuleListTH32 (StackTrace.cpp 628-682) *)

Inductive dll := kernel32_dll | tlhelp32_dll.

Record module_entry := {
  szExePath : string;
  szModule : string;
  modBaseAddr : Z;
  modBaseSize : Z;
}.

(** A loaded library: which of the three names [GetProcAddress] finds,
    and the modules its snapshot enumerates ([None]: the snapshot call
    returns [(HANDLE) -1]). *)
Record toolhelp := {
  has_CreateToolhelp32Snapshot : bool;
  has_Module32First : bool;
  has_Module32Next : bool;
  snapshot : option (list module_entry);
}.

(** [LoadLibrary]: [None] when it returns a null handle. *)
Definition windows := dll -> option toolhelp.

Inductive win_event :=
| LoadLibrary (d : dll)
| GetProcAddress (d : dll) (name : string)
| FreeLibrary (d : dll)
| CreateToolhelp32Snapshot (d : dll)
| LoadModule (m : module_entry)
| CloseHandle.

Definition get_procs (d : dll) : list win_event :=
  [GetProcAddress d "CreateToolhelp32Snapshot";
   GetProcAddress d "Module32First";
   GetProcAddress d "Module32Next"].

(** The [for] loop over [dllname]: the library left in [hToolhelp] (if
    any) and the calls made. *)
Fixpoint try_dlls (env : windows) (dllname : list dll)
  : option (dll * toolhelp) * list win_event :=
  match dllname with
  | [] => (None, [])
  | d :: rest =>
      match env d with
      | None =>                                             (* continue *)
          let '(h, evs) := try_dlls env rest in
          (h, LoadLibrary d :: evs)
      | Some lib =>
          if (has_CreateToolhelp32Snapshot lib && has_Module32First lib
              && has_Module32Next lib)%bool
          then (Some (d, lib), LoadLibrary d :: get_procs d)   (* break *)
          else
            let '(h, evs) := try_dlls env rest in
            (h, LoadLibrary d :: get_procs d ++ FreeLibrary d :: evs)
      end
  end.

Definition GetModuleListTH32 (env : windows) : bool * list win_event :=
  let '(hToolhelp, evs) := try_dlls env [kernel32_dll; tlhelp32_dll] in
  match hToolhelp with
  | None => (false, evs)
  | Some (d, lib) =>
      match snapshot lib with
      | None => (false, evs ++ [CreateToolhelp32Snapshot d; FreeLibrary d])
      | Some modules =>
          let cnt := Z.of_nat (length modules) in
          (0 <? cnt,
           evs ++ CreateToolhelp32Snapshot d :: map LoadModule modules
               ++ [CloseHandle; FreeLibrary d])
      end
  end.

(** The library whose entry points enumerate the modules. *)
Definition used_dll (env : windows) : option dll :=
  match fst (try_dlls env [kernel32_dll; tlhelp32_dll]) with
  | Some (d, _) => Some d
  | None => None
  end.


Definition complete_dll (lib : toolhelp) : bool :=
  (has_CreateToolhelp32Snapshot lib && has_Module32First lib
   && has_Module32Next lib)%bool.

(** ** stack_info::pack and stack_info::unpack

    Modelled from the spec: [pack] and [unpack], which StackTrace.h
    declares and whose bodies are not in the sources. The layout is the
    one of the spec's section on serialization: [address] (8 bytes,
    little-endian), [address2] (8 bytes, little-endian), [line] (4 bytes,
    little-endian, clamped to 255), then [object], [filename] and
    [function], each a length-prefixed byte array. The width of a length
    prefix is taken to be 4 bytes, little-endian, as for the count that
    [packArray] writes. *)

Definition byte_of_Z (z : Z) : ascii := ascii_of_N (Z.to_N (z mod 256)).
Definition Z_of_byte (c : ascii) : Z := Z.of_N (N_of_ascii c).

Fixpoint le_bytes (n : nat) (z : Z) : list ascii :=
  match n with
  | O => []
  | S n' => byte_of_Z z :: le_bytes n' (z / 256)
  end.

Fixpoint le_value (bs : list ascii) : Z :=
  match bs with
  | [] => 0
  | b :: r => Z_of_byte b + 256 * le_value r
  end.

Definition pack_array (s : string) : list ascii :=
  le_bytes 4 (Z.of_nat (String.length s)) ++ list_ascii_of_string s.

Definition pack (f : stack_info) : list ascii :=
  le_bytes 8 (address_ f) ++ le_bytes 8 (address2 f)
    ++ le_bytes 4 (Z.min (line f) 255)
    ++ pack_array (object f) ++ pack_array (filename f)
    ++ pack_array (function f).

Definition read_le (n : nat) (bs : list ascii) : option (Z * list ascii) :=
  if (n <=? length bs)%nat then Some (le_value (take n bs), drop n bs)
  else None.

Definition read_array (bs : list ascii) : option (string * list ascii) :=
  '(len, r) ← read_le 4 bs;
  if (Z.to_nat len <=? length r)%nat
  then Some (string_of_list_ascii (take (Z.to_nat len) r),
             drop (Z.to_nat len) r)
  else None.

(** [unpack]: the frame read and the bytes after it. *)
Definition unpack (bs : list ascii) : option (stack_info * list ascii) :=
  '(a, r) ← read_le 8 bs;
  '(a2, r) ← read_le 8 r;
  '(l, r) ← read_le 4 r;
  '(o, r) ← read_array r;
  '(fn, r) ← read_array r;
  '(fu, r) ← read_array r;
  Some ({| line := l; address_ := a; address2 := a2;
           object := o; filename := fn; function := fu |}, r).

(** The values a [stack_info] can hold: pointers of 64 bits, a line that
    is not negative, strings whose length fits the prefix. *)
Definition representable (f : stack_info) : Prop :=
  0 <= address_ f < 2 ^ 64 /\ 0 <= address2 f < 2 ^ 64 /\ 0 <= line f /\
  Z.of_nat (String.length (object f)) < 2 ^ 32 /\
  Z.of_nat (String.length (filename f)) < 2 ^ 32 /\
  Z.of_nat (String.length (function f)) < 2 ^ 32.

(** ** The specification's reading of the [nm] line format

    These two definitions follow the words of the specification, not the
    code: a line is accepted when it does not start with whitespace and
    has at least three whitespace-separated fields. *)

(** Number of maximal runs of characters that are not whitespace. *)
Fixpoint count_fields (in_field : bool) (s : string) : nat :=
  match s with
  | EmptyString => O
  | String c r =>
      if isspace c then count_fields false r
      else ((if in_field then 0 else 1) + count_fields true r)%nat
  end.

Definition spec_accepts (ln : string) : bool :=
  (negb (isspace (first_char ln)) && (3 <=? count_fields false ln)%nat)%bool.

(** ** Vocabulary of the statements *)

(** A table sorted ascending by address, as [nm -n] prints it. *)
Definition sorted (X : list Z) : Prop :=
  forall i j xi xj,
    X !! i = Some xi -> X !! j = Some xj -> (i <= j)%nat -> xi <= xj.

(** Number of occurrences of a character. *)
Fixpoint count_char (ch : ascii) (s : string) : nat :=
  match s with
  | EmptyString => O
  | String c r => ((if Ascii.eqb c ch then 1 else 0) + count_char ch r)%nat
  end.

(** The text up to the first newline. *)
Definition up_to_newline (s : string) : string :=
  match strchr s LF with
  | Some (name, _) => name
  | None => s
  end.

(** A sequence of calls of [getSymbols], each with the system as it is
    at that moment: what each call hands to its caller, in call order. A
    caller that catches the exception of one call can make the next. *)
Fixpoint getSymbols_run (cfg : build) (ws : list world)
    (st : program_state)
  : outcome (program_state *
             list (completion (list Z * list ascii * list string * Z))) :=
  match ws with
  | [] => Done (st, [])
  | w :: rest =>
      do r <- getSymbols cfg w st;
      let '(st1, c) := r in
      do r' <- getSymbols_run cfg rest st1;
      let '(st2, cs) := r' in
      Done (st2, c :: cs)
  end.

(** The values of the calls that returned, in call order. *)
Definition returned {A} (cs : list (completion A)) : list A :=
  omap (fun c => match c with Returns a => Some a | Throws => None end) cs.

(** The results that a sequence of calls of [getSymbols] returns; a call
    that throws returns none. *)
Definition getSymbols_calls (cfg : build) (ws : list world)
    (st : program_state)
  : outcome (program_state * list (list Z * list ascii * list string * Z)) :=
  do r <- getSymbols_run cfg ws st;
  Done (r.1, returned r.2).



(** ** Concrete systems used in the examples *)

Definition linux_build : build :=
  {| target := Linux; gnu_source := true; use_abi := true |}.

(** A system in which every [popen] succeeds and prints [out], no
    allocation fails and the loader knows no address. *)
Definition quiet_world (out : string) : world :=
  {| popen_out := fun _ => Some out; bad_alloc := None; stack_bytes := [];
     dladdr := fun _ => None; cxa_demangle := fun _ => None |}.

(** A state in which the load has already run without error and the
    global table holds the given records. *)
Definition cached (addr : list Z) (names : list string) : program_state :=
  {| loaded := true; data := no_symbols;
     global_symbols := {| address := addr; type := map (fun _ => "T"%char) addr;
                          obj := names; error := 0 |};
     global_exe_name := "/bin/app"; getSymbols_mutex := false;
     popen_log := [] |}.

Definition line_of (s : string) : string := s +:+ String LF EmptyString.

(** The records of the lines that the parse loop accepts, in the order of
    the stream. *)
Definition accepted_records (out : string) : list (Z * ascii * string) :=
  omap parse_line (fgets_loop 0xFFFFF out).

(** The second buffer that two calls [fgets( buf, 4095, f )] read. *)
Definition second_line (out : string) : string :=
  (fgets_take (4095 - 1) (fgets_take (4095 - 1) out).2).1.




(** The three vectors of a table hold the same number of entries. *)
Definition balanced (d : global_symbols_struct) : Prop :=
  length (address d) = length (type d) /\ length (type d) = length (obj d).

(** ** Utilities::setAbortBehavior (Utilities.cpp 110-114)

    The call to [StackTrace::setDefaultStackType] sets a variable of
    another file; of the statics here only [abort_throwException]
    changes. *)
Definition setAbortBehavior (throwException : bool) (st : abort_state)
  : abort_state :=
  {| abort_throwException := throwException; force_exit := force_exit st |}.

(** Two entries into [terminate], the second in the state the first one
    left (the process is still alive while [SIGABRT] is being handled). *)
Definition terminate_twice (cfg : utilities_build) (w1 w2 : abort_world)
    (st : abort_state) : abort_state * list abort_event :=
  let '(st1, evs1) := terminate cfg w1 st in
  let '(st2, evs2) := terminate cfg w2 st1 in
  (st2, evs1 ++ evs2).

(** ** Counting the calls of GetModuleListTH32 *)

#[global] Instance dll_eq_dec : EqDecision dll.
Proof. solve_decision. Defined.
#[global] Instance module_entry_eq_dec : EqDecision module_entry.
Proof. solve_decision. Defined.
#[global] Instance win_event_eq_dec : EqDecision win_event.
Proof. solve_decision. Defined.

(** How often a call occurs in a trace. *)
Definition calls (e : win_event) (evs : list win_event) : nat :=
  count_occ win_event_eq_dec evs e.

(** The modules handed to [LoadModule], in call order. *)
Definition loaded_modules (evs : list win_event) : list module_entry :=
  omap (fun e => match e with LoadModule m => Some m | _ => None end) evs.

(** The modules that the snapshot of the chosen library enumerates. *)
Definition snapshot_modules (env : windows) : list module_entry :=
  match used_dll env with
  | Some d => match env d with
              | Some lib => default [] (snapshot lib)
              | None => []
              end
  | None => []
  end.

(** ** getCallStack (StackTrace.cpp 409-560) *)

(** The loop [for ( int i = 0; i < trace_size; ++i )
    stack_list.push_back( getStackInfo( trace[i] ) )]. *)
Fixpoint getStackInfo_each (cfg : build) (w : world) (st : program_state)
    (trace : list Z) : outcome (program_state * list stack_info) :=
  match trace with
  | [] => Done (st, [])
  | a :: rest =>
      do r <- getStackInfo cfg w st a;
      let '(st1, info) := r in
      do r' <- getStackInfo_each cfg w st1 rest;
      let '(st2, stack_list) := r' in
      Done (st2, info :: stack_list)
  end.

(** What one call of [StackWalk64] and the symbol queries on its frame
    answer. [None] stands for a query that returns FALSE. *)
Record walk_frame := {
  AddrPC : Z;
  AddrReturn : Z;
  SymFromAddr : option (string * option string);
      (* pSym->Name, and the undecorated name unless
         UnDecorateSymbolName returns 0 *)
  LineFromAddr : option (Z * string);       (* LineNumber, FileName *)
  ModuleInfo : option string;               (* LoadedImageName *)
}.

(** [StackWalk64] at its n-th call; [None] when it returns FALSE. *)
Definition walker := nat -> option walk_frame.

(** The frame that one round of the loop builds. *)
Definition csEntry_of (fr : walk_frame) : stack_info :=
  let csEntry := set_address (AddrPC fr) stack_info_default in
  if (AddrPC fr =? 0) then csEntry
  else
    let csEntry :=
      match SymFromAddr fr with
      | Some (name, None) => set_function (c_str name) csEntry
      | Some (_, Some undecorated) => set_function (c_str undecorated) csEntry
      | None => csEntry
      end in
    let csEntry :=
      match LineFromAddr fr with
      | Some (n, file) => set_file_line (c_str file) (to_uint8 n) csEntry
      | None => set_file_line "" 0 csEntry
      end in
    match ModuleInfo fr with
    | Some image => set_object (c_str image) csEntry
    | None => csEntry
    end.

(** The loop [for ( int frameNum = 0, curRecursionCount = 0; ;
    ++frameNum )] of the Windows branch; one unit of fuel is one round.
    The diagnostics it prints are not recorded. *)
Fixpoint stack_walk (fuel : nat) (walk : walker) (frameNum : nat)
    (curRecursionCount : Z) (stack_list : list stack_info)
  : outcome (list stack_info) :=
  match fuel with
  | O => Spin
  | S fuel' =>
      match walk frameNum with
      | None => Done stack_list                                  (* break *)
      | Some fr =>
          let recursion := (AddrPC fr =? AddrReturn fr) in
          if (recursion && (1024 <? curRecursionCount))%bool
          then Done stack_list                                   (* break *)
          else
            let curRecursionCount :=
              if recursion then curRecursionCount + 1 else 0 in
            let csEntry := csEntry_of fr in
            let stack_list :=
              if (address_ csEntry =? 0) then stack_list
              else stack_list ++ [csEntry] in
            if (AddrReturn fr =? 0) then Done stack_list         (* break *)
            else stack_walk fuel' walk (S frameNum) curRecursionCount
                   stack_list
      end
  end.

(** [getCallStack]. On Linux and Darwin [frames] are the return addresses
    that [backtrace] finds, of which it stores at most 100. On Windows
    the result is that of the walk when the file is compiled with
    [DBGHELP], and empty otherwise; the calls that come before the walk
    (the symbol paths, the module lists) do not touch [stack_list] and are
    not recorded. *)
Definition getCallStack (cfg : build) (dbghelp : bool) (w : world)
    (frames : list Z) (walk : walker) (fuel : nat) (st : program_state)
  : outcome (program_state * list stack_info) :=
  match target cfg with
  | Linux | Mac => getStackInfo_each cfg w st (take 100 frames)
  | Windows =>
      if dbghelp then
        do stack_list <- stack_walk fuel walk 0 0 [];
        Done (st, stack_list)
      else Done (st, [])
  end.

(** A walker that reports the same frame for ever. *)
Definition endless (fr : walk_frame) : walker := fun _ => Some fr.

(** ** stripPath (StackTrace.cpp 74-85) *)

(** [c == 47 || c == 92]: a slash or a backslash. *)
Definition is_separator (c : ascii) : bool :=
  let n := nat_of_ascii c in ((n =? 47) || (n =? 92))%nat.

(** [for ( i = n - 1; i >= 0 && filename[i] != 47 && filename[i] != 92;
    i-- ) {}]: the value of [i] after the loop. *)
Fixpoint stripPath_loop (filename : string) (n : nat) : outcome Z :=
  match n with
  | O => Done (-1)
  | S i =>
      match String.get i filename with
      | None => OutOfBounds
      | Some c => if is_separator c then Done (Z.of_nat i)
                  else stripPath_loop filename i
      end
  end.

Definition stripPath (filename : string) : outcome string :=
  if String.eqb filename "" then Done ""
  else
    let i0 := to_int (to_int (Z.of_nat (String.length filename)) - 1) in
    do i <- (if (i0 <? 0) then Done i0
             else stripPath_loop filename (S (Z.to_nat i0)));
    let i := Z.max 0 (to_int (i + 1)) in
    Done (String.substring (Z.to_nat i)
            (String.length filename - Z.to_nat i) filename).

(** Whether a string holds a slash or a backslash. *)
Fixpoint has_separator (s : string) : bool :=
  match s with
  | EmptyString => false
  | String c r => (is_separator c || has_separator r)%bool
  end.

(** A walker that reports a frame without program counter, then the
    frame of [main], whose return address is 0. *)
Definition two_frames : walker := fun n =>
  match n with
  | O => Some {| AddrPC := 0; AddrReturn := 4096; SymFromAddr := None;
                 LineFromAddr := None; ModuleInfo := None |}
  | _ => Some {| AddrPC := 4096; AddrReturn := 0;
                 SymFromAddr := Some ("?main@@YAHXZ", Some "main");
                 LineFromAddr := Some (57, "a.cpp");
                 ModuleInfo := Some "app.exe" |}
  end.

Definition windows_build : build :=
  {| target := Windows; gnu_source := false; use_abi := false |}.

(** A system in which no child process can be started and the loader
    knows no address. *)
Definition bare_world : world :=
  {| popen_out := fun _ => None; bad_alloc := None; stack_bytes := [];
     dladdr := fun _ => None; cxa_demangle := fun _ => None |}.

Definition mac_build : build :=
  {| target := Mac; gnu_source := false; use_abi := true |}.

(** * Properties *)

(** *** Index bounds of [findfirst] *)

Lemma vector_max_size_val : vector_max_size = 2 ^ 60 - 1.
Proof. reflexivity. Qed.

(** Turns [H : vector_ok X] into the bound [size X <= 2 ^ 60 - 1]. *)
Ltac size_bound H :=
  unfold vector_ok in H; rewrite vector_max_size_val in H.

Lemma wrap64_small z : 0 <= z < 2 ^ 64 -> wrap64 z = z.
Proof. intros H. unfold wrap64. now apply Z.mod_small. Qed.

Lemma at_in_range {A} (X : list A) i :
  0 <= i < size X -> exists x, at_ X i = Done x /\ X !! Z.to_nat i = Some x.
Proof.
  intros [H0 H1]. unfold at_, size in *.
  destruct (Z.ltb_spec i 0) as [?|_]; [lia|].
  destruct (X !! Z.to_nat i) as [x|] eqn:E.
  - eauto.
  - apply lookup_ge_None in E. lia.
Qed.

(** The loop keeps [lower < upper < size] and ends within [upper - lower]
    iterations. *)
Lemma findfirst_loop_bounds fuel X Y lower upper :
  vector_ok X ->
  0 <= lower < upper -> upper < size X ->
  (Z.to_nat (upper - lower) <= S fuel)%nat ->
  exists i, findfirst_loop fuel X Y lower upper = Done i /\ lower < i <= upper.
Proof.
  intros Hok. size_bound Hok.
  revert lower upper.
  induction fuel as [|fuel IH]; intros lower upper Hlu Hup Hfuel; simpl.
  - assert (upper - lower = 1) as Heq by lia.
    rewrite Heq. change (wrap64 1 =? 1) with true. simpl.
    exists upper. split; [done|lia].
  - rewrite (wrap64_small (upper - lower)) by lia.
    destruct (Z.eqb_spec (upper - lower) 1) as [Heq|Hne].
    + exists upper. split; [done|lia].
    + rewrite (wrap64_small (upper + lower)) by lia.
      assert (lower < (upper + lower) / 2 < upper) as Hmid
        by (Z.div_mod_to_equations; lia).
      destruct (at_in_range X ((upper + lower) / 2)) as (xv & -> & _); [lia|].
      simpl. destruct (Y <=? xv).
      * destruct (IH lower ((upper + lower) / 2)) as (i & -> & Hi); [lia..|].
        exists i. split; [done|lia].
      * destruct (IH ((upper + lower) / 2) upper) as (i & -> & Hi); [lia..|].
        exists i. split; [done|lia].
Qed.

Lemma findfirst_index X Y :
  vector_ok X -> X <> [] ->
  exists i, findfirst X Y = Done i /\ 0 <= i < size X.
Proof.
  intros Hok Hne. pose proof Hok as Hok'.
  size_bound Hok'.
  assert (1 <= size X) as Hsz
    by (destruct X; [done|unfold size; simpl; lia]).
  assert (findfirst X Y =
          (do xl <- at_ X 0;
           if (Y <=? xl) then Done 0
           else do xu <- at_ X (wrap64 (size X - 1));
                if (xu <? Y) then Done (wrap64 (size X - 1))
                else findfirst_loop (length X) X Y 0 (wrap64 (size X - 1))))
    as -> by (destruct X; [done|reflexivity]).
  rewrite (wrap64_small (size X - 1)) by lia.
  destruct (at_in_range X 0) as (xl & -> & Hl); [lia|]. unfold obind at 1.
  destruct (Z.leb_spec Y xl) as [?|Hlt]; [exists 0; split; [done|lia]|].
  destruct (at_in_range X (size X - 1)) as (xu & -> & Hu); [lia|].
  unfold obind at 1.
  destruct (Z.ltb_spec xu Y) as [?|Hge]; [exists (size X - 1); split; [done|lia]|].
  destruct (Z.eq_dec (size X) 1) as [H1|H1].
  - (* a single element: both tests read X[0], so one of them succeeds *)
    rewrite H1 in Hu. change (Z.to_nat (1 - 1)) with (Z.to_nat 0) in Hu.
    rewrite Hl in Hu. injection Hu as ->. lia.
  - destruct (findfirst_loop_bounds (length X) X Y 0 (size X - 1))
      as (i & -> & Hi); [done|lia|lia|unfold size; lia|].
    exists i. split; [done|lia].
Qed.

(** With [X[lower] < Y <= X[upper]] at entry, the loop ends on a pair of
    neighbours that still brackets [Y]. *)
Lemma findfirst_loop_adjacent fuel X Y lower upper xl xu :
  vector_ok X ->
  0 <= lower < upper -> upper < size X ->
  X !! Z.to_nat lower = Some xl -> xl < Y ->
  X !! Z.to_nat upper = Some xu -> Y <= xu ->
  (Z.to_nat (upper - lower) <= S fuel)%nat ->
  exists i a b,
    findfirst_loop fuel X Y lower upper = Done i /\ lower < i <= upper /\
    X !! Z.to_nat (i - 1) = Some a /\ X !! Z.to_nat i = Some b /\
    a < Y <= b.
Proof.
  intros Hok. size_bound Hok.
  revert lower upper xl xu.
  induction fuel as [|fuel IH];
    intros lower upper xl xu Hlu Hup Hl Hxl Hu Hxu Hfuel; simpl.
  - assert (upper - lower = 1) as Heq by lia.
    rewrite Heq. change (wrap64 1 =? 1) with true. simpl.
    exists upper, xl, xu. replace (upper - 1) with lower by lia.
    repeat split; (done || lia).
  - rewrite (wrap64_small (upper - lower)) by lia.
    destruct (Z.eqb_spec (upper - lower) 1) as [Heq|Hne].
    + exists upper, xl, xu. replace (upper - 1) with lower by lia.
      repeat split; (done || lia).
    + rewrite (wrap64_small (upper + lower)) by lia.
      assert (lower < (upper + lower) / 2 < upper) as Hmid
        by (Z.div_mod_to_equations; lia).
      destruct (at_in_range X ((upper + lower) / 2)) as (xv & -> & Hv); [lia|].
      simpl. destruct (Z.leb_spec Y xv).
      * destruct (IH lower ((upper + lower) / 2) xl xv)
          as (i & a & b & -> & Hi & Ha & Hb & Hab); [lia|lia|done..|lia|].
        exists i, a, b. repeat split; (done || lia).
      * destruct (IH ((upper + lower) / 2) upper xv xu)
          as (i & a & b & -> & Hi & Ha & Hb & Hab); [lia|lia|done..|lia|].
        exists i, a, b. repeat split; (done || lia).
Qed.

(** When [Y] lies above the first address and not above the last one,
    [findfirst] returns the index of an entry [>= Y] whose predecessor is
    [< Y]. *)
Lemma findfirst_adjacent X Y x0 xn :
  vector_ok X ->
  X !! 0%nat = Some x0 -> x0 < Y ->
  X !! Z.to_nat (size X - 1) = Some xn -> Y <= xn ->
  exists i a b,
    findfirst X Y = Done i /\ 0 < i < size X /\
    X !! Z.to_nat (i - 1) = Some a /\ X !! Z.to_nat i = Some b /\
    a < Y <= b.
Proof.
  intros Hok H0 Hx0 Hn Hxn. pose proof Hok as Hok'.
  size_bound Hok'.
  assert (1 <= size X) as Hsz
    by (destruct X; [done|unfold size; simpl; lia]).
  assert (findfirst X Y =
          (do xl <- at_ X 0;
           if (Y <=? xl) then Done 0
           else do xu <- at_ X (wrap64 (size X - 1));
                if (xu <? Y) then Done (wrap64 (size X - 1))
                else findfirst_loop (length X) X Y 0 (wrap64 (size X - 1))))
    as -> by (destruct X; [done|reflexivity]).
  rewrite (wrap64_small (size X - 1)) by lia.
  destruct (at_in_range X 0) as (xl & -> & Hl); [lia|]. unfold obind at 1.
  change (Z.to_nat 0) with 0%nat in Hl. rewrite H0 in Hl. injection Hl as <-.
  destruct (Z.leb_spec Y x0) as [?|_]; [lia|].
  destruct (at_in_range X (size X - 1)) as (xu & -> & Hu); [lia|].
  unfold obind at 1. rewrite Hn in Hu. injection Hu as <-.
  destruct (Z.ltb_spec xn Y) as [?|_]; [lia|].
  assert (size X <> 1) as H1.
  { intros H1. rewrite H1 in Hn. change (Z.to_nat (1 - 1)) with 0%nat in Hn.
    rewrite H0 in Hn. injection Hn as ->. lia. }
  destruct (findfirst_loop_adjacent (length X) X Y 0 (size X - 1) x0 xn)
    as (i & a & b & -> & Hi & Ha & Hb & Hab);
    [done|lia|lia|done|done|done|done|unfold size; lia|].
  exists i, a, b. repeat split; (done || lia).
Qed.

(** [getSymbols2] writes [loaded], [data], the mutex and the log; the
    global table and the executable's name stay as they are. *)
Lemma getSymbols2_frame cfg w st st' :
  getSymbols2 cfg w st = Done st' ->
  global_symbols st' = global_symbols st /\
  global_exe_name st' = global_exe_name st /\ loaded st' = true.
Proof.
  unfold getSymbols2, getSymbols2_run. destruct (loaded st) eqn:Hl.
  - intros [= <-]. done.
  - destruct (load_symbols cfg w (global_exe_name st) (data st))
      as [[[[d cmds] u] f]| |]; simpl; [|discriminate..].
    intros [= <-]. done.
Qed.

Lemma getSymbols2_of_run cfg w st st' f :
  getSymbols2_run cfg w st = Done (st', f) -> getSymbols2 cfg w st = Done st'.
Proof. unfold getSymbols2. by intros ->. Qed.

(** C10. For every vector [X] and value [Y], [findfirst X Y] returns; the
    index is 0 for an empty vector and strictly below [X.size()]
    otherwise. Consequently, when the cached address and obj vectors have
    equal length, the accesses of [getDataFromGlobalSymbols] stay in
    bounds: the call returns whenever [getSymbols2] does. *)
Theorem findfirst_in_bounds (X : list Z) (Y : Z) :
  vector_ok X ->
  (exists i, findfirst X Y = Done i /\
             (X = [] -> i = 0) /\ (X <> [] -> 0 <= i < size X)) /\
  (forall cfg w st st' info,
      address (global_symbols st) = X -> address_ info = Y ->
      length (obj (global_symbols st)) = length X ->
      getSymbols2 cfg w st = Done st' ->
      exists info', getDataFromGlobalSymbols cfg w st info = Done (st', info')).
Proof.
  intros Hok.
  assert (exists i, findfirst X Y = Done i /\
             (X = [] -> i = 0) /\ (X <> [] -> 0 <= i < size X)) as Hff.
  { destruct X as [|x X'] eqn:E.
    - exists 0. repeat split; done.
    - destruct (findfirst_index (x :: X') Y) as (i & Hi & Hb); [done..|].
      exists i. repeat split; [done|done|lia|lia]. }
  split; [exact Hff|].
  intros cfg w st st' info HX HY Hlen Hload.
  destruct Hff as (i & Hi & Hempty & Hne).
  unfold getDataFromGlobalSymbols. rewrite Hload. simpl.
  destruct (getSymbols2_frame _ _ _ _ Hload) as (Hgs & _ & _).
  destruct (error (data st') =? 0); [|eauto].
  rewrite Hgs, HX, HY, Hi. simpl.
  destruct (Z.ltb_spec 0 i) as [Hpos|_]; [|eauto].
  assert (X <> []) as HXne by (intros ->; specialize (Hempty eq_refl); lia).
  specialize (Hne HXne).
  pose proof Hok as Hok'. size_bound Hok'.
  rewrite (wrap64_small (i - 1)) by lia.
  destruct (at_in_range (obj (global_symbols st)) (i - 1)) as (o & -> & _).
  { unfold size in *. lia. }
  simpl. eauto.
Qed.

Lemma findfirst_in_bounds_witness :
  exists info',
    getDataFromGlobalSymbols
      {| target := Linux; gnu_source := true; use_abi := true |}
      {| popen_out := fun _ => None; bad_alloc := None; stack_bytes := [];
         dladdr := fun _ => None; cxa_demangle := fun _ => None |}
      {| loaded := true; data := no_symbols;
         global_symbols := {| address := [16; 32]; type := ["T"; "T"]%char;
                              obj := ["alpha"; "beta"]; error := 0 |};
         global_exe_name := "/bin/app"; getSymbols_mutex := false;
         popen_log := [] |}
      (set_address 24 stack_info_default)
    = Done ({| loaded := true; data := no_symbols;
               global_symbols := {| address := [16; 32];
                                    type := ["T"; "T"]%char;
                                    obj := ["alpha"; "beta"]; error := 0 |};
               global_exe_name := "/bin/app"; getSymbols_mutex := false;
               popen_log := [] |}, info').
Proof.
  refine (proj2 (findfirst_in_bounds [16; 32] 24 _) _ _ _ _ _ _ _ _ _);
    try reflexivity.
  unfold vector_ok. vm_compute. discriminate.
Defined.

(** *** The lookup of the symbol cache *)

(** An address above every entry: [findfirst] stops at its second test
    and returns the last index, not [X.size()]. *)
Lemma findfirst_above_last X Y x0 xn :
  vector_ok X ->
  X !! 0%nat = Some x0 -> x0 < Y ->
  X !! Z.to_nat (size X - 1) = Some xn -> xn < Y ->
  findfirst X Y = Done (size X - 1).
Proof.
  intros Hok H0 Hx0 Hn Hxn. size_bound Hok.
  assert (1 <= size X) as Hsz
    by (destruct X; [done|unfold size; simpl; lia]).
  destruct X as [|x X']; [done|]. unfold findfirst.
  rewrite (wrap64_small (size (x :: X') - 1)) by lia.
  destruct (at_in_range (x :: X') 0) as (xl & -> & Hl); [lia|].
  unfold obind at 1. change (Z.to_nat 0) with 0%nat in Hl.
  rewrite H0 in Hl. injection Hl as <-.
  destruct (Z.leb_spec Y x0) as [?|_]; [lia|].
  destruct (at_in_range (x :: X') (size (x :: X') - 1)) as (xu & -> & Hu);
    [lia|].
  unfold obind at 1. rewrite Hn in Hu. injection Hu as <-.
  destruct (Z.ltb_spec xn Y) as [_|?]; [done|lia].
Qed.

(** The table that is searched is never the one that was loaded: whatever
    [nm] printed, a lookup in a process whose global table is empty sets
    [object] to the executable's name. *)
Lemma lookup_in_empty_global_table cfg w st st' info :
  address (global_symbols st) = [] ->
  getSymbols2 cfg w st = Done st' -> error (data st') = 0 ->
  getDataFromGlobalSymbols cfg w st info
  = Done (st', set_object (global_exe_name st) info).
Proof.
  intros Hgs Hload Herr. unfold getDataFromGlobalSymbols.
  rewrite Hload. simpl. rewrite Herr. simpl.
  destruct (getSymbols2_frame _ _ _ _ Hload) as (-> & -> & _).
  rewrite Hgs. reflexivity.
Qed.

(** C1, at a failing input. At program start [nm] prints the single line
    [0000000000000010 T main]; the lookup of address [0x20] loads the
    record [(0x10, T, main)], whose address is strictly lower than [0x20],
    and returns no record: [object] becomes the executable's name. The
    search runs over the global table, which is still empty; and on the
    loaded table [findfirst] would answer 0 as well, since above the last
    entry it returns the last index (1 for the table [0x10, 0x20] at
    [0x30], so that the record at [0x10] would be taken). *)
Theorem lookup_misses_nearest_lower :
  exists st' info',
    getDataFromGlobalSymbols linux_build
      (quiet_world (line_of "0000000000000010 T main"))
      (initial_state "/bin/app") (set_address 32 stack_info_default)
    = Done (st', info') /\
    address (data st') = [16] /\ obj (data st') = ["main"] /\
    error (data st') = 0 /\
    address (global_symbols st') = [] /\
    object info' = "/bin/app" /\
    findfirst (address (data st')) 32 = Done 0 /\
    findfirst [16; 32] 48 = Done 1.
Proof.
  eexists _, _. split; [vm_compute; reflexivity|].
  repeat split; reflexivity.
Qed.

(** C6, at a failing input. At program start [nm] prints three lines, two
    of them at the address [0x10]: [first], then [second], then [third] at
    [0x20]. The lookup of [0x18], which lies inside the range of the
    symbols at [0x10], loads the three records and returns none of them:
    [object] becomes the executable's name, not the earliest-inserted
    record [first]. The search runs over the global table, which nothing
    fills. On the loaded table [findfirst] answers 2, so that the record
    before that index would be [second], the latest-inserted of the two. *)
Theorem duplicates_lookup_returns_no_record :
  exists st' info',
    getDataFromGlobalSymbols linux_build
      (quiet_world (line_of "0000000000000010 T first"
                    +:+ line_of "0000000000000010 T second"
                    +:+ line_of "0000000000000020 T third"))
      (initial_state "/bin/app") (set_address 24 stack_info_default)
    = Done (st', info') /\
    address (data st') = [16; 16; 32] /\
    obj (data st') = ["first"; "second"; "third"] /\
    error (data st') = 0 /\
    address (global_symbols st') = [] /\
    object info' = "/bin/app" /\
    findfirst (address (data st')) 24 = Done 2 /\
    obj (data st') !! 1%nat = Some "second".
Proof.
  eexists _, _. split; [vm_compute; reflexivity|].
  repeat split; reflexivity.
Qed.


(** *** The parse of the [nm] output *)

Lemma strchr_None s ch : strchr s ch = None <-> count_char ch s = O.
Proof.
  induction s as [|c r IH]; simpl; [done|].
  destruct (Ascii.eqb c ch); [done|].
  destruct (strchr r ch) as [[before after]|]; simpl.
  - split; [done|]. intros H. apply IH in H. done.
  - split; [intros _; by apply IH|done].
Qed.

Lemma strchr_Some s ch before after :
  strchr s ch = Some (before, after) ->
  s = before +:+ String ch after /\ count_char ch before = O /\
  count_char ch s = S (count_char ch after).
Proof.
  revert before. induction s as [|c r IH]; intros before; simpl; [done|].
  destruct (Ascii.eqb_spec c ch) as [->|Hne].
  - intros [= <- <-]. done.
  - destruct (strchr r ch) as [[b' a']|]; [|done].
    intros [= <- <-]. destruct (IH b' eq_refl) as (-> & Hb & Hc).
    simpl. destruct (Ascii.eqb_spec c ch); done.
Qed.

(** A buffer is accepted exactly when its text does not begin with a
    space and holds two spaces. *)
Lemma parse_line_accepts buf :
  is_Some (parse_line buf) <->
  first_char (c_str buf) <> SP /\ (2 <= count_char SP (c_str buf))%nat.
Proof.
  unfold parse_line.
  destruct (Ascii.eqb_spec (first_char (c_str buf)) SP) as [Heq|Hne].
  - split; [intros [? [=]]|intros [? _]; done].
  - destruct (strchr (c_str buf) SP) as [[a' b]|] eqn:Ha.
    + apply strchr_Some in Ha as (_ & _ & Hcount).
      destruct (strchr b SP) as [[b' c]|] eqn:Hb.
      * apply strchr_Some in Hb as (_ & _ & Hcount').
        split; [intros _; split; [done|lia]|eauto].
      * apply strchr_None in Hb.
        split; [intros [? [=]]|intros [_ ?]; lia].
    + apply strchr_None in Ha.
      split; [intros [? [=]]|intros [_ ?]; lia].
Qed.

(** What an accepted buffer yields. *)
Lemma parse_line_record buf add ty name :
  parse_line buf = Some (add, ty, name) ->
  exists a b c,
    c_str buf = a +:+ String SP (b +:+ String SP c) /\
    count_char SP a = O /\ count_char SP b = O /\
    add = strtoul16 a /\ ty = first_char b /\ name = up_to_newline c.
Proof.
  unfold parse_line.
  destruct (Ascii.eqb (first_char (c_str buf)) SP); [done|].
  destruct (strchr (c_str buf) SP) as [[a' b]|] eqn:Ha; [|done].
  destruct (strchr b SP) as [[b' c]|] eqn:Hb; [|done].
  intros [= <- <- <-].
  apply strchr_Some in Ha as (-> & Hca & _).
  apply strchr_Some in Hb as (-> & Hcb & _).
  exists a', b', c. done.
Qed.

Lemma fgets_take_split room s l rest :
  fgets_take room s = (l, rest) -> s = l +:+ rest.
Proof.
  revert room l rest. induction s as [|c r IH]; intros room l rest; simpl.
  - intros [= <- <-]. done.
  - destruct (room <=? 0); [intros [= <- <-]; done|].
    destruct (Ascii.eqb c LF); [intros [= <- <-]; done|].
    destruct (fgets_take (room - 1) r) as [l' rest'] eqn:E.
    intros [= <- <-]. simpl. f_equal. eauto.
Qed.

Lemma fgets_take_line l rest room :
  count_char LF l = O -> Z.of_nat (String.length l) < room ->
  fgets_take room (l +:+ String LF rest) = (l +:+ String LF "", rest).
Proof.
  revert room. induction l as [|c l IH]; intros room; simpl.
  - intros _ H. destruct (Z.leb_spec room 0); [lia|]. done.
  - destruct (Ascii.eqb c LF); [done|]. intros Hc Hlen.
    destruct (Z.leb_spec room 0); [lia|].
    rewrite IH by (done || lia). done.
Qed.

Lemma fgets_take_progress room c r l rest :
  0 < room -> fgets_take room (String c r) = (l, rest) ->
  (String.length rest <= String.length r)%nat.
Proof.
  intros Hroom. simpl. destruct (Z.leb_spec room 0); [lia|].
  destruct (Ascii.eqb c LF); [intros [= <- <-]; done|].
  destruct (fgets_take (room - 1) r) as [l' rest'] eqn:E.
  intros [= <- <-]. apply fgets_take_split in E. subst r.
  clear. induction l' as [|? ? IH]; simpl; lia.
Qed.

(** The fuel of [fgets_loop] reaches the end of the stream: the buffers
    read, put end to end, are the stream. *)
Lemma read_lines_all fuel room s :
  0 < room -> (String.length s <= fuel)%nat ->
  String.concat "" (read_lines fuel room s) = s.
Proof.
  intros Hroom. revert s.
  induction fuel as [|fuel IH]; intros s Hlen.
  - destruct s; [done|simpl in Hlen; lia].
  - destruct s as [|c r]; [done|].
    cbn [read_lines].
    destruct (fgets_take room (String c r)) as [l rest] eqn:E.
    pose proof (fgets_take_progress _ _ _ _ _ Hroom E) as Hp.
    pose proof (fgets_take_split _ _ _ _ E) as Hs.
    assert (String.concat "" (l :: read_lines fuel room rest)
            = l +:+ String.concat "" (read_lines fuel room rest)) as ->.
    { cbn [String.concat].
      destruct (read_lines fuel room rest) eqn:E'; [|done].
      simpl. clear. induction l as [|? ? IHl]; simpl; [done|by rewrite <- IHl]. }
    rewrite IH by (simpl in Hlen; lia). done.
Qed.

(** Without a failing allocation the loop appends one record per
    accepted buffer, in the order of the buffers. *)
Lemma nm_loop_no_fault bufs d :
  nm_loop bufs None d
  = ({| address := address d ++ map (fun r => r.1.1) (omap parse_line bufs);
        type := type d ++ map (fun r => r.1.2) (omap parse_line bufs);
        obj := obj d ++ map snd (omap parse_line bufs);
        error := error d |}, false, None).
Proof.
  revert d. induction bufs as [|buf rest IH]; intros d; simpl.
  - rewrite !app_nil_r. by destruct d.
  - destruct (parse_line buf) as [[[add ty] name]|]; simpl; [|apply IH].
    rewrite IH. simpl. rewrite <- !app_assoc. reflexivity.
Qed.

(** C5, as stated, fails: the buffer [10 T ] followed by a newline has two
    whitespace-separated fields and is accepted, with an empty name. *)
Lemma three_fields_rule_fails :
  ~ (forall buf, is_Some (parse_line buf) <-> spec_accepts buf = true).
Proof.
  intros H. destruct (H (line_of "10 T ")) as [H1 _].
  discriminate H1. vm_compute. eauto.
Qed.

(** C5, amended. A buffer read from the [nm] stream is accepted if and
    only if its first character is not a space and it holds at least two
    spaces. An accepted buffer yields the record whose address is
    [strtoul] in base 16 of the text before the first space, whose kind is
    the character after the first space (NUL when the second space follows
    at once) and whose name is the text after the second space up to the
    newline. When no allocation fails the records are appended in the
    order of the stream, which is read to its end, and the code is 0
    however many buffers were skipped. *)
Theorem nm_lines_parsed cfg w st out :
  use_nm cfg = true -> loaded st = false ->
  cmd_fits cfg (global_exe_name st) = true ->
  popen_out w (nm_command cfg (global_exe_name st)) = Some out ->
  bad_alloc w = None ->
  (forall buf, is_Some (parse_line buf) <->
               first_char (c_str buf) <> SP /\
               (2 <= count_char SP (c_str buf))%nat) /\
  (forall buf add ty name,
      parse_line buf = Some (add, ty, name) ->
      exists a b c,
        c_str buf = a +:+ String SP (b +:+ String SP c) /\
        count_char SP a = O /\ count_char SP b = O /\
        add = strtoul16 a /\ ty = first_char b /\ name = up_to_newline c) /\
  String.concat "" (fgets_loop 0xFFFFF out) = out /\
  exists st',
    getSymbols2 cfg w st = Done st' /\
    address (data st')
    = address (data st) ++ map (fun r => r.1.1) (accepted_records out) /\
    type (data st')
    = type (data st) ++ map (fun r => r.1.2) (accepted_records out) /\
    obj (data st') = obj (data st) ++ map snd (accepted_records out) /\
    error (data st') = 0.
Proof.
  intros Hnm Hl Hfit Hout Halloc.
  split; [exact parse_line_accepts|].
  split; [exact parse_line_record|].
  split; [apply read_lines_all; [done|lia]|].
  unfold getSymbols2, getSymbols2_run, load_symbols.
  rewrite Hl, Hnm, Hfit, Hout, Halloc. cbn [allocate].
  rewrite nm_loop_no_fault. cbn [obind].
  eexists. split; [reflexivity|]. done.
Qed.

Lemma nm_lines_parsed_witness :
  exists st',
    getSymbols2 linux_build
      (quiet_world (line_of "0000000000000010 T main"
                    +:+ line_of "                 U printf"
                    +:+ line_of "0000000000000020 t helper(int, char)"))
      (initial_state "/bin/app") = Done st' /\
    address (data st') = [16; 32] /\
    type (data st') = ["T"; "t"]%char /\
    obj (data st') = ["main"; "helper(int, char)"] /\
    error (data st') = 0.
Proof.
  destruct (nm_lines_parsed linux_build
              (quiet_world (line_of "0000000000000010 T main"
                            +:+ line_of "                 U printf"
                            +:+ line_of "0000000000000020 t helper(int, char)"))
              (initial_state "/bin/app") _ eq_refl eq_refl eq_refl eq_refl
              eq_refl)
    as (_ & _ & _ & st' & H & Ha & Ht & Ho & He).
  exists st'. repeat split; [exact H|rewrite Ha|rewrite Ht|rewrite Ho|exact He];
    reflexivity.
Defined.

(** *** Loading the symbol cache *)


(** An oracle without failure stays without failure, and only an oracle
    with a failure makes a copy throw. *)
Lemma copy_assign_oracle {A} (Y : list A) f f' :
  copy_assign Y f = Some f' -> f = None -> f' = None.
Proof.
  intros H ->. destruct Y; simpl in H; by injection H as <-.
Qed.

Lemma copy_assign_throws {A} (Y : list A) f :
  copy_assign Y f = None -> f <> None.
Proof. intros H ->. by destruct Y. Qed.



(** The three copy-assignments: the call returns what is cached, or it
    throws, and it throws only when the oracle holds a failure. *)
Lemma getSymbols_cases cfg w st st' f :
  getSymbols2_run cfg w st = Done (st', f) ->
  exists c,
    getSymbols cfg w st = Done (st', c) /\
    (c = Returns (getSymbols_result (data st')) \/ c = Throws /\ f <> None).
Proof.
  intros H. unfold getSymbols. rewrite H. cbn [obind].
  destruct (copy_assign (address (data st')) f) as [f1|] eqn:E1.
  2:{ eexists. split; [reflexivity|]. right. split; [done|].
      by eapply copy_assign_throws. }
  destruct (copy_assign (type (data st')) f1) as [f2|] eqn:E2.
  2:{ eexists. split; [reflexivity|]. right. split; [done|].
      intros ->. apply copy_assign_throws in E2.
      by rewrite (copy_assign_oracle _ _ _ E1 eq_refl) in E2. }
  destruct (copy_assign (obj (data st')) f2) as [f3|] eqn:E3.
  2:{ eexists. split; [reflexivity|]. right. split; [done|].
      intros ->. apply copy_assign_throws in E3.
      rewrite (copy_assign_oracle _ _ _ E2
                 (copy_assign_oracle _ _ _ E1 eq_refl)) in E3. done. }
  eexists. split; [reflexivity|]. by left.
Qed.

(** Once the table is loaded a call neither runs a command nor writes the
    statics. *)
Lemma getSymbols_loaded cfg w st :
  loaded st = true ->
  exists c,
    getSymbols cfg w st = Done (st, c) /\
    (c = Returns (getSymbols_result (data st)) \/
     c = Throws /\ bad_alloc w <> None).
Proof.
  intros H. apply getSymbols_cases. unfold getSymbols2_run. by rewrite H.
Qed.

Lemma getSymbols_run_loaded cfg ws st :
  loaded st = true ->
  exists cs,
    getSymbols_run cfg ws st = Done (st, cs) /\
    Forall2 (fun w' c' => c' = Returns (getSymbols_result (data st)) \/
                          c' = Throws /\ bad_alloc w' <> None) ws cs.
Proof.
  intros H. induction ws as [|w ws (cs & Hcs & IH)]; simpl.
  - exists []. split; [done|constructor].
  - destruct (getSymbols_loaded cfg w st H) as (c & -> & Hc).
    cbn [obind]. rewrite Hcs. cbn [obind].
    exists (c :: cs). split; [done|]. by constructor.
Qed.










(** *** The terminate path *)

Lemma error_stream_callAbort cfg : error_stream (callAbort cfg) = [].
Proof. unfold callAbort. by destruct (use_gcov cfg). Qed.

(** C3. When [terminate] is entered with [force_exit > 1], it takes the
    mutex, clears the error handler and goes straight to [callAbort]:
    [err.what()] is not written, nothing reaches the error stream, the
    statics keep their values and the last call is [std::abort]. *)
Theorem terminate_reentry_aborts cfg w st :
  1 < force_exit st ->
  terminate cfg w st
  = (st, [terminate_mutex_lock; clearErrorHandler] ++ callAbort cfg) /\
  error_stream (terminate cfg w st).2 = [] /\
  last (terminate cfg w st).2 = Some std_abort.
Proof.
  intros H. unfold terminate.
  destruct (Z.ltb_spec 1 (force_exit st)) as [_|?]; [|lia].
  split; [reflexivity|]. simpl. split.
  - apply error_stream_callAbort.
  - unfold callAbort. by destruct (use_gcov cfg).
Qed.

Lemma terminate_reentry_aborts_witness :
  terminate {| use_gcov := false; use_mpi := true |}
    {| what := "Program abort called"; mpi_initialized := true;
       mpi_finalized := false; mpi_abort_returns := true |}
    {| abort_throwException := false; force_exit := 2 |}
  = ({| abort_throwException := false; force_exit := 2 |},
     [terminate_mutex_lock; clearErrorHandler; terminate_mutex_unlock;
      std_abort]).
Proof.
  refine (proj1 (terminate_reentry_aborts _ _ _ _)). simpl. lia.
Defined.

(** A first entry, for comparison: the message is written and
    [force_exit] becomes 2. *)
Example terminate_first_entry :
  terminate {| use_gcov := false; use_mpi := false |}
    {| what := "Program abort called"; mpi_initialized := false;
       mpi_finalized := false; mpi_abort_returns := true |}
    {| abort_throwException := false; force_exit := 0 |}
  = ({| abort_throwException := false; force_exit := 2 |},
     [terminate_mutex_lock; clearErrorHandler; perr "Program abort called";
      terminate_mutex_unlock; std_abort]).
Proof. reflexivity. Qed.

(** *** The choice of the toolhelp library *)







(** *** The resolver *)

Lemma find_colon_ge buf i : i <= find_colon buf i.
Proof.
  revert i. induction buf as [|c r IH]; intros i; simpl; [lia|].
  destruct (4095 <=? i); [lia|].
  destruct (Ascii.eqb c ":"); [lia|]. specialize (IH (i + 1)). lia.
Qed.

Lemma find_colon_zero c r : find_colon (c :: r) 0 = 0 -> c = ":"%char.
Proof.
  simpl. destruct (Ascii.eqb_spec c ":") as [->|_]; [done|].
  pose proof (find_colon_ge r (0 + 1)). lia.
Qed.

Lemma store_first l buf : exists r, store l buf = first_char l :: r.
Proof. unfold store. destruct l; simpl; eauto. Qed.

Lemma string_of_list_ascii_empty l : string_of_list_ascii l = "" -> l = [].
Proof. by destruct l. Qed.

(** The only way [getFileAndLine] leaves [filename] empty and [line]
    set is a second buffer that begins with a colon. *)
Lemma getFileAndLine_empty_filename cfg w info info' :
  (forall o x out, popen_out w (addr2line_command o x) = Some out ->
                   first_char (second_line out) <> ":"%char) ->
  getFileAndLine cfg w info = Done info' ->
  (filename info = "" -> line info = 0) ->
  filename info' = "" -> line info' = 0.
Proof.
  intros Hout. unfold getFileAndLine.
  destruct (target cfg); [|by intros [= <-]..].
  set (cmd := addr2line_command _ _).
  destruct (Z.of_nat (String.length cmd) <? Z.of_nat buf_size); [|done].
  destruct (popen_out w cmd) as [out|] eqn:Hp; [|by intros [= <-]].
  specialize (Hout _ _ _ Hp). unfold second_line in Hout.
  set (buf0 := take 4095 (store cmd (fresh_buf w)) ++ [NUL]).
  unfold fgets at 2.
  destruct out as [|c0 out0].
  { (* the stream is empty: neither call reads anything *)
    cbn [fgets]. destruct (at_ buf0 0) as [b0| |]; cbn [obind]; [|intros [=]..].
    rewrite !Bool.andb_false_r.
    destruct (String.eqb (function info) "" && false)%bool;
      by intros [= <-]. }
  destruct (fgets_take (4095 - 1) (String c0 out0)) as [l1 rest1] eqn:E1.
  cbn [snd] in Hout.
  cbn [fgets]. rewrite ?E1. cbn [fgets].
  set (info1 := if (String.eqb (function info) "" && true)%bool
                then set_function (drop_last (cstr_at (store l1 buf0) 0)) info
                else info).
  assert (filename info1 = filename info /\ line info1 = line info) as [Hf Hl].
  { unfold info1. by destruct (String.eqb (function info) "" && true)%bool. }
  destruct rest1 as [|c1 rest1'].
  { cbn [fgets].
    destruct (at_ (store l1 buf0) 0) as [b0| |]; cbn [obind]; [|intros [=]..].
    rewrite !Bool.andb_false_r. intros [= <-]. rewrite Hf, Hl. done. }
  destruct (fgets_take (4095 - 1) (String c1 rest1')) as [l2 rest2] eqn:E2.
  cbn [fst] in Hout.
  cbn [fgets]. rewrite ?E2. cbn [fgets].
  destruct (store_first l2 (store l1 buf0)) as (r & Hst). rewrite Hst.
  assert (at_ (first_char l2 :: r) 0 = Done (first_char l2)) as -> by done.
  cbn [obind].
  destruct (negb (Ascii.eqb (first_char l2) "?")
            && negb (Ascii.eqb (first_char l2) NUL) && true)%bool.
  - remember (find_colon (first_char l2 :: r) 0) as i eqn:Hi.
    destruct (i + 1 <? Z.of_nat buf_size); [|done].
    intros [= <-]. cbn [filename line set_file_line].
    intros _ Hempty. apply string_of_list_ascii_empty in Hempty.
    pose proof (find_colon_ge (first_char l2 :: r) 0) as Hge.
    rewrite <- Hi in Hge.
    assert (i = 0) as Hz by (destruct (Z.to_nat i) eqn:En; [lia|done]).
    rewrite Hz in Hi. symmetry in Hi. apply find_colon_zero in Hi. done.
  - intros [= <-]. rewrite Hf, Hl. done.
Qed.

Lemma getDataFromGlobalSymbols_fields cfg w st info st' info' :
  getDataFromGlobalSymbols cfg w st info = Done (st', info') ->
  filename info' = filename info /\ line info' = line info.
Proof.
  unfold getDataFromGlobalSymbols.
  destruct (getSymbols2 cfg w st) as [st1| |]; [|done..]. cbn [obind].
  destruct (error (data st1) =? 0); [|by intros [= <- <-]].
  destruct (findfirst _ _) as [index| |]; [|done..]. cbn [obind].
  destruct (0 <? index); [|by intros [= <- <-]].
  destruct (at_ _ _) as [o| |]; [|done..]. by intros [= <- <-].
Qed.

(** C7, as stated, fails: when the second line that [addr2line] prints is
    [:5], the frame has an empty [filename] and [line] 5. *)
Lemma colon_line_breaks_invariant :
  ~ (forall cfg w st a st' info,
        getStackInfo cfg w st a = Done (st', info) ->
        filename info = "" -> line info = 0).
Proof.
  intros H.
  specialize (H linux_build (quiet_world (line_of "main" +:+ line_of ":5"))
                (cached [] []) 4096).
  discriminate (H _ _ ltac:(vm_compute; reflexivity) eq_refl).
Qed.

(** C7, amended. Every stack_info that [getStackInfo] produces has
    [line] 0 when its [filename] is empty, provided the second line read
    from [addr2line] does not begin with a colon. *)
Theorem empty_filename_line_zero cfg w st a st' info :
  (forall o x out, popen_out w (addr2line_command o x) = Some out ->
                   first_char (second_line out) <> ":"%char) ->
  getStackInfo cfg w st a = Done (st', info) ->
  filename info = "" -> line info = 0.
Proof.
  intros Hout. unfold getStackInfo.
  set (info0 := set_address a stack_info_default).
  assert (forall i0 i1 s1,
             getDataFromGlobalSymbols cfg w st info0 = Done (s1, i0) ->
             getFileAndLine cfg w i0 = Done i1 ->
             filename i1 = "" -> line i1 = 0) as Hsym.
  { intros i0 i1 s1 Hd Hg.
    apply getDataFromGlobalSymbols_fields in Hd as [Hf Hl].
    eapply getFileAndLine_empty_filename; [done|done|].
    rewrite Hl. done. }
  assert (forall s,
             (do r <- getDataFromGlobalSymbols cfg w st info0;
              let '(st', info) := r in
              do info <- getFileAndLine cfg w info;
              Done (st', info)) = Done (s, info) ->
             filename info = "" -> line info = 0) as Hpath.
  { intros s.
    destruct (getDataFromGlobalSymbols cfg w st info0) as [[s1 i0]| |] eqn:Hd;
      [|done..].
    cbn [obind].
    destruct (getFileAndLine cfg w i0) as [i1| |] eqn:Hg; [|done..].
    cbn [obind]. intros [= <- <-]. eauto. }
  destruct (gnu_source cfg || match target cfg with Mac => true | _ => false end)%bool;
    [|apply Hpath].
  destruct (dladdr w a) as [dlinfo|]; [|apply Hpath].
  set (info1 := set_object _ _).
  set (info2 := if use_abi cfg then _ else _).
  assert (filename info2 = "" /\ line info2 = 0) as [Hf Hl].
  { unfold info2.
    destruct (use_abi cfg);
      [destruct (cxa_demangle w (dli_sname dlinfo))|];
      destruct (dli_sname dlinfo); done. }
  destruct (getFileAndLine cfg w info2) as [i1| |] eqn:Hg; [|done..].
  cbn [obind]. intros [= <- <-].
  eapply getFileAndLine_empty_filename; [done|done|done].
Qed.

(** [addr2line] knows neither the function nor the file: the frame keeps
    an empty [filename] and [line] 0. *)
Lemma empty_filename_line_zero_witness :
  exists st' info,
    getStackInfo linux_build (quiet_world (line_of "??" +:+ line_of "??:0"))
      (cached [] []) 4096 = Done (st', info) /\
    filename info = "" /\ line info = 0.
Proof.
  eexists _, _. split; [vm_compute; reflexivity|]. split; [reflexivity|].
  apply (empty_filename_line_zero linux_build
           (quiet_world (line_of "??" +:+ line_of "??:0")) (cached [] []) 4096
           (cached [] [])).
  - intros o x out [= <-]. vm_compute. discriminate.
  - vm_compute. reflexivity.
  - reflexivity.
Defined.

(** *** Serialization *)

Lemma Z_of_byte_of_Z z : Z_of_byte (byte_of_Z z) = z mod 256.
Proof.
  unfold Z_of_byte, byte_of_Z.
  assert (0 <= z mod 256 < 256) as Hb by (apply Z.mod_pos_bound; lia).
  rewrite N_ascii_embedding by lia. lia.
Qed.

Lemma length_le_bytes n z : length (le_bytes n z) = n.
Proof. revert z. induction n as [|n IH]; intros z; simpl; [done|by rewrite IH]. Qed.

Lemma le_value_le_bytes n z :
  0 <= z < 256 ^ Z.of_nat n -> le_value (le_bytes n z) = z.
Proof.
  revert z. induction n as [|n IH]; intros z Hz.
  - simpl in *. lia.
  - cbn [le_bytes le_value]. rewrite Z_of_byte_of_Z.
    rewrite Nat2Z.inj_succ, Z.pow_succ_r in Hz by lia.
    rewrite IH by (Z.div_mod_to_equations; lia).
    Z.div_mod_to_equations; lia.
Qed.

Lemma read_le_app n z r :
  0 <= z < 256 ^ Z.of_nat n -> read_le n (le_bytes n z ++ r) = Some (z, r).
Proof.
  intros Hz. unfold read_le.
  rewrite length_app, length_le_bytes.
  destruct (Nat.leb_spec n (n + length r)) as [_|?]; [|lia].
  rewrite take_app_length', drop_app_length' by (by rewrite length_le_bytes).
  by rewrite le_value_le_bytes.
Qed.

Lemma length_list_ascii_of_string s :
  length (list_ascii_of_string s) = String.length s.
Proof. induction s as [|c s IH]; simpl; [done|by rewrite IH]. Qed.

Lemma read_array_app s r :
  Z.of_nat (String.length s) < 2 ^ 32 ->
  read_array (pack_array s ++ r) = Some (s, r).
Proof.
  intros Hlen. unfold read_array, pack_array.
  rewrite <- app_assoc, read_le_app by (change (256 ^ Z.of_nat 4) with (2 ^ 32); lia).
  cbn [mbind option_bind]. rewrite Nat2Z.id.
  rewrite length_app, length_list_ascii_of_string.
  destruct (Nat.leb_spec (String.length s) (String.length s + length r))
    as [_|?]; [|lia].
  rewrite take_app_length', drop_app_length'
    by (by rewrite length_list_ascii_of_string).
  by rewrite string_of_list_ascii_of_string.
Qed.

(** C4. Unpacking the bytes that [pack] wrote gives the frame back, with
    nothing left over, for every representable frame whose [line] is at
    most 255. *)
Theorem unpack_pack (f : stack_info) :
  representable f -> line f <= 255 ->
  unpack (pack f) = Some (f, []).
Proof.
  intros (Ha & Ha2 & Hl & Ho & Hfn & Hfu) Hline.
  unfold unpack, pack.
  rewrite read_le_app by (change (256 ^ Z.of_nat 8) with (2 ^ 64); lia).
  cbn [mbind option_bind].
  rewrite read_le_app by (change (256 ^ Z.of_nat 8) with (2 ^ 64); lia).
  cbn [mbind option_bind].
  rewrite read_le_app by (change (256 ^ Z.of_nat 4) with (2 ^ 32); lia).
  cbn [mbind option_bind].
  rewrite read_array_app by done. cbn [mbind option_bind].
  rewrite read_array_app by done. cbn [mbind option_bind].
  rewrite <- (app_nil_r (pack_array (function f))).
  rewrite read_array_app by done. cbn [mbind option_bind].
  rewrite Z.min_l by lia. by destruct f.
Qed.

Lemma unpack_pack_witness :
  unpack (pack {| line := 57; address_ := 4198742; address2 := 1366;
                  object := "/bin/app"; filename := "/src/a.c";
                  function := "main" |})
  = Some ({| line := 57; address_ := 4198742; address2 := 1366;
             object := "/bin/app"; filename := "/src/a.c";
             function := "main" |}, []).
Proof.
  apply unpack_pack.
  - unfold representable. simpl. lia.
  - simpl. lia.
Defined.

(** Above 255 the line is clamped, so the frame does not come back. *)
Example clamped_line_300 :
  unpack (pack {| line := 300; address_ := 1; address2 := 0;
                  object := ""; filename := "a.c"; function := "" |})
  = Some ({| line := 255; address_ := 1; address2 := 0;
             object := ""; filename := "a.c"; function := "" |}, []).
Proof. vm_compute. reflexivity. Qed.

(** * Further properties of the code *)

(** *** findfirst on a sorted vector *)

Lemma findfirst_below_first X Y x0 :
  X !! 0%nat = Some x0 -> Y <= x0 -> findfirst X Y = Done 0.
Proof.
  intros H0 Hx0. destruct X as [|x X']; [done|].
  simpl in H0. injection H0 as ->. unfold findfirst.
  change (at_ (x0 :: X') 0) with (Done x0). unfold obind at 1.
  destruct (Z.leb_spec Y x0); [done|lia].
Qed.

Lemma sorted_findfirst_split X Y :
  vector_ok X -> sorted X -> X <> [] ->
  exists i,
    findfirst X Y = Done i /\ 0 <= i < size X /\
    (forall j xj, X !! j = Some xj -> Z.of_nat j < i -> xj < Y) /\
    (forall j xj, X !! j = Some xj -> i < Z.of_nat j -> Y <= xj) /\
    (forall xi, X !! Z.to_nat i = Some xi -> xi < Y ->
                i = size X - 1 /\ forall j xj, X !! j = Some xj -> xj < Y).
Proof.
  intros Hok Hsorted Hne.
  pose proof Hok as Hok'. size_bound Hok'.
  assert (1 <= size X) as Hsz
    by (destruct X; [done|unfold size; simpl; lia]).
  destruct (at_in_range X 0) as (x0 & _ & H0); [lia|].
  change (Z.to_nat 0) with 0%nat in H0.
  destruct (at_in_range X (size X - 1)) as (xn & _ & Hn); [lia|].
  destruct (Z.le_gt_cases Y x0) as [Hle|Hgt].
  { (* the first test *)
    exists 0. rewrite (findfirst_below_first X Y x0) by done.
    repeat split; try lia.
    - intros j xj Hj _.
      assert (x0 <= xj) by (eapply (Hsorted 0%nat j); eauto; lia). lia.
    - change (Z.to_nat 0) with 0%nat in H. rewrite H0 in H.
      injection H as <-. lia.
    - change (Z.to_nat 0) with 0%nat in H. rewrite H0 in H.
      injection H as <-. lia. }
  destruct (Z.le_gt_cases Y xn) as [Hle|Hgt'].
  - (* the loop *)
    destruct (findfirst_adjacent X Y x0 xn)
      as (i & a & b & Hff & Hi & Ha & Hb & Hab); [done|done|lia|done|done|].
    exists i. repeat split; try (done || lia).
    + intros j xj Hj Hlt.
      assert (xj <= a) by (eapply (Hsorted j (Z.to_nat (i - 1))); eauto; lia).
      lia.
    + intros j xj Hj Hlt.
      assert (b <= xj) by (eapply (Hsorted (Z.to_nat i) j); eauto; lia).
      lia.
    + rewrite Hb in H. injection H as <-. lia.
    + rewrite Hb in H. injection H as <-. lia.
  - (* the second test *)
    exists (size X - 1).
    rewrite (findfirst_above_last X Y x0 xn) by (done || lia).
    assert (forall j xj, X !! j = Some xj -> xj < Y) as Hall.
    { intros j xj Hj.
      assert (xj <= xn).
      { eapply (Hsorted j (Z.to_nat (size X - 1))); eauto.
        apply lookup_lt_Some in Hj. unfold size. lia. }
      lia. }
    repeat split; try (done || lia); eauto.
    intros j xj Hj Hlt. apply lookup_lt_Some in Hj. unfold size in Hlt. lia.
Qed.

(** X1. On a non-empty vector sorted in ascending order [findfirst]
    returns the index [i] that separates the entries below [Y] from the
    others: every entry before [i] is [< Y], every entry after [i] is
    [>= Y], and the entry at [i] itself is [< Y] only when all entries
    are, in which case [i] is the last index. *)
Theorem findfirst_sorted X Y :
  vector_ok X -> sorted X -> X <> [] ->
  exists i,
    findfirst X Y = Done i /\ 0 <= i < size X /\
    (forall j xj, X !! j = Some xj -> Z.of_nat j < i -> xj < Y) /\
    (forall j xj, X !! j = Some xj -> i < Z.of_nat j -> Y <= xj) /\
    (forall xi, X !! Z.to_nat i = Some xi -> xi < Y ->
                i = size X - 1 /\ forall j xj, X !! j = Some xj -> xj < Y).
Proof. apply sorted_findfirst_split. Qed.

Lemma findfirst_sorted_witness :
  exists i, findfirst [16; 32; 48] 40 = Done i /\ 0 <= i < size [16; 32; 48].
Proof.
  destruct (findfirst_sorted [16; 32; 48] 40) as (i & Hi & Hb & _).
  - unfold vector_ok. vm_compute. discriminate.
  - intros i j xi xj Hi Hj Hij.
    destruct i as [|[|[|i]]]; destruct j as [|[|[|j]]];
      simpl in Hi, Hj; simplify_eq; lia.
  - discriminate.
  - exists i. done.
Defined.

(** X2. On a sorted vector the index that [findfirst] returns does not
    decrease when the value looked up grows. *)
Theorem findfirst_monotone X Y1 Y2 i1 i2 :
  vector_ok X -> sorted X ->
  Y1 <= Y2 -> findfirst X Y1 = Done i1 -> findfirst X Y2 = Done i2 ->
  i1 <= i2.
Proof.
  intros Hok Hsorted HY H1 H2.
  assert (X = [] \/ X <> []) as [->|Hne]
    by (destruct X; [by left|by right]).
  { cbn in H1, H2. simplify_eq. lia. }
  destruct (sorted_findfirst_split X Y1 Hok Hsorted Hne)
    as (i1' & Hf1 & Hb1 & Hlt1 & _ & _).
  destruct (sorted_findfirst_split X Y2 Hok Hsorted Hne)
    as (i2' & Hf2 & Hb2 & _ & _ & Hall2).
  rewrite H1 in Hf1. rewrite H2 in Hf2. simplify_eq.
  destruct (Z.le_gt_cases i1' i2') as [?|Hgt]; [done|].
  destruct (at_in_range X i2') as (x2 & _ & Hx2); [lia|].
  assert (x2 < Y1) as Hlow by (eapply (Hlt1 (Z.to_nat i2')); eauto; lia).
  destruct (Hall2 x2 Hx2 ltac:(lia)) as [-> _]. lia.
Qed.

Lemma findfirst_monotone_witness :
  findfirst [16; 32; 48] 20 = Done 1 /\ findfirst [16; 32; 48] 40 = Done 2 /\
  1 <= 2.
Proof.
  split; [reflexivity|]. split; [reflexivity|].
  apply (findfirst_monotone [16; 32; 48] 20 40 1 2).
  - unfold vector_ok. vm_compute. discriminate.
  - intros i j xi xj Hi Hj Hij.
    destruct i as [|[|[|i]]]; destruct j as [|[|[|j]]];
      simpl in Hi, Hj; simplify_eq; lia.
  - lia.
  - reflexivity.
  - reflexivity.
Defined.

(** *** Lines in the format of [nm] *)

Lemma count_char_app ch s t :
  count_char ch (s +:+ t) = (count_char ch s + count_char ch t)%nat.
Proof. induction s as [|c s IH]; simpl; [done|]. rewrite IH. lia. Qed.

Lemma c_str_no_nul s : count_char NUL s = O -> c_str s = s.
Proof.
  induction s as [|c s IH]; simpl; [done|].
  destruct (Ascii.eqb c NUL); [done|]. intros H. by rewrite IH.
Qed.

Lemma strchr_app s ch t :
  count_char ch s = O -> strchr (s +:+ String ch t) ch = Some (s, t).
Proof.
  induction s as [|c s IH]; simpl.
  - intros _. by rewrite Ascii.eqb_refl.
  - destruct (Ascii.eqb c ch); [done|]. intros H. by rewrite IH.
Qed.

(** X3. A line of the form address, space, kind character, space, name,
    newline is accepted whatever the name holds besides NUL and newline
    (spaces included), and yields the record with that address text
    parsed by [strtoul], that kind and that name. *)
Theorem parse_line_wellformed (h : string) (k : ascii) (n : string) :
  h <> "" -> count_char SP h = O -> count_char NUL h = O ->
  k <> SP -> k <> NUL ->
  count_char NUL n = O -> count_char LF n = O ->
  parse_line (h +:+ String SP (String k (String SP (n +:+ String LF ""))))
  = Some (strtoul16 h, k, n).
Proof.
  intros Hh Hsp Hnul Hk Hk0 Hn0 Hnl.
  unfold parse_line.
  rewrite c_str_no_nul.
  2:{ rewrite count_char_app, Hnul. simpl.
      destruct (Ascii.eqb_spec k NUL); [done|].
      rewrite count_char_app, Hn0. reflexivity. }
  assert (first_char (h +:+ String SP (String k (String SP (n +:+ String LF ""))))
          <> SP) as Hfirst.
  { destruct h as [|c h']; [done|]. simpl in *.
    destruct (Ascii.eqb_spec c SP); [done|]. done. }
  destruct (Ascii.eqb_spec
              (first_char (h +:+ String SP
                             (String k (String SP (n +:+ String LF "")))))
              SP) as [?|_]; [done|].
  rewrite strchr_app by done.
  cbn [strchr]. destruct (Ascii.eqb_spec k SP) as [?|_]; [done|].
  rewrite Ascii.eqb_refl. rewrite strchr_app by done. reflexivity.
Qed.

Lemma parse_line_wellformed_witness :
  parse_line (line_of "00000000004005d6 T helper(int, char const*)")
  = Some (4195798, "T"%char, "helper(int, char const*)").
Proof.
  exact (parse_line_wellformed "00000000004005d6" "T"
           "helper(int, char const*)" ltac:(discriminate) eq_refl eq_refl
           ltac:(discriminate) ltac:(discriminate) eq_refl eq_refl).
Defined.

(** *** The table after a load *)

Lemma nm_loop_lengths bufs f d d' threw f' :
  nm_loop bufs f d = (d', threw, f') -> balanced d ->
  (length (obj d') <= length (type d') <= length (address d')
   /\ length (address d') <= S (length (obj d')))%nat /\
  (threw = false -> balanced d') /\
  (exists more, address d' = address d ++ more) /\
  error d' = error d.
Proof.
  revert f d. induction bufs as [|buf rest IH]; intros f d; simpl.
  - intros [= <- <- _] [H1 H2]. split_and!; try lia; try done.
    exists []. by rewrite app_nil_r.
  - destruct (parse_line buf) as [[[add ty] name]|]; [|apply IH].
    intros Hloop [H1 H2].
    destruct (allocate f) as [f1|].
    2:{ injection Hloop as <- <- _. split_and!; try lia; try done.
        exists []. by rewrite app_nil_r. }
    destruct (allocate f1) as [f2|].
    2:{ injection Hloop as <- <- _. simpl. rewrite length_app. simpl.
        split_and!; try lia; try done. eauto. }
    destruct (allocate f2) as [f3|].
    2:{ injection Hloop as <- <- _. simpl. rewrite !length_app. simpl.
        split_and!; try lia; try done. eauto. }
    apply IH in Hloop as (Hlen & Hbal & (more & Hmore) & Herr).
    + split_and!; try done; try lia.
      exists (add :: more). rewrite Hmore. simpl. by rewrite <- app_assoc.
    + unfold balanced. simpl. rewrite !length_app. simpl. lia.
Qed.

(** X4. A load that starts from a table whose three vectors have equal
    length keeps the addresses that were there and leaves at most one
    partial record: there are never more names than kinds, never more
    kinds than addresses, and at most one address more than names. When
    no allocation fails the three vectors have equal length again. *)
Theorem load_keeps_table_shape cfg w st st' :
  getSymbols2 cfg w st = Done st' -> balanced (data st) ->
  (length (obj (data st')) <= length (type (data st'))
   <= length (address (data st'))
   /\ length (address (data st')) <= S (length (obj (data st'))))%nat /\
  (bad_alloc w = None -> balanced (data st')) /\
  (exists more, address (data st') = address (data st) ++ more).
Proof.
  unfold getSymbols2, getSymbols2_run. destruct (loaded st).
  { intros [= <-] [H1 H2]. split_and!; try lia; try done.
    exists []. by rewrite app_nil_r. }
  unfold load_symbols.
  destruct (use_nm cfg).
  2:{ cbn [obind]. intros [= <-] [H1 H2]. simpl.
      split_and!; try lia; try done. exists []. by rewrite app_nil_r. }
  destruct (cmd_fits cfg (global_exe_name st)); [|done].
  destruct (popen_out w _) as [out|].
  2:{ cbn [obind]. intros [= <-] [H1 H2]. simpl.
      split_and!; try lia; try done. exists []. by rewrite app_nil_r. }
  destruct (allocate (bad_alloc w)) as [f|] eqn:Ha.
  2:{ cbn [obind]. intros [= <-] [H1 H2]. simpl.
      split_and!; try lia; try done;
        [intros Hn; by rewrite Hn in Ha..|].
      exists []. by rewrite app_nil_r. }
  destruct (nm_loop (fgets_loop 0xFFFFF out) f (data st))
    as [[d1 threw] f1] eqn:Hl.
  cbn [obind]. intros [= <-] Hbal.
  destruct (nm_loop_lengths _ _ _ _ _ _ Hl Hbal) as (Hlen & Hb & Hmore & _).
  assert (bad_alloc w = None -> threw = false) as Hnothrow.
  { intros Hn. rewrite Hn in Ha. injection Ha as <-.
    rewrite nm_loop_no_fault in Hl. by injection Hl. }
  cbn [data]. destruct threw; simpl; (split; [done|]); (split; [|done]).
  - intros Hn. by specialize (Hnothrow Hn).
  - intros _. by apply Hb.
Qed.

Lemma load_keeps_table_shape_witness :
  exists st',
    getSymbols2 linux_build
      {| popen_out := fun _ => Some (line_of "0000000000000010 T main");
         bad_alloc := Some 2%nat; stack_bytes := [];
         dladdr := fun _ => None; cxa_demangle := fun _ => None |}
      (initial_state "/bin/app") = Done st' /\
    (length (obj (data st')) <= length (type (data st'))
     <= length (address (data st'))
     /\ length (address (data st')) <= S (length (obj (data st'))))%nat /\
    length (address (data st')) = 1%nat /\ length (obj (data st')) = 0%nat.
Proof.
  eexists. split; [vm_compute; reflexivity|]. split; [|done].
  refine (proj1 (load_keeps_table_shape linux_build
                   {| popen_out := fun _ => Some (line_of "0000000000000010 T main");
                      bad_alloc := Some 2%nat; stack_bytes := [];
                      dladdr := fun _ => None; cxa_demangle := fun _ => None |}
                   (initial_state "/bin/app") _ _ _)).
  - vm_compute. reflexivity.
  - done.
Defined.

Lemma returned_same {A B} (R : A) (Q : B -> Prop) (ws : list B) cs :
  Forall2 (fun w c => c = Returns R \/ c = Throws /\ Q w) ws cs ->
  Forall (fun r => r = R) (returned cs).
Proof.
  induction 1 as [|w c ws cs [->|[-> _]] _ IH]; simpl;
    [constructor|by constructor|done].
Qed.

Lemma load_symbols_codes cfg w exe d d' cmds u f :
  load_symbols cfg w exe d = Done (d', cmds, u, f) ->
  (error d' = 0 \/ error d' = -1 \/ error d' = -2) /\
  (use_nm cfg = false -> d' = set_error (-1) d /\ cmds = []).
Proof.
  unfold load_symbols. destruct (use_nm cfg).
  - destruct (cmd_fits cfg exe); [|done].
    destruct (popen_out w (nm_command cfg exe)) as [out|].
    + destruct (allocate (bad_alloc w)) as [f0|].
      * destruct (nm_loop (fgets_loop 1048575 out) f0 d) as [[d1 threw] f1].
        intros [= <- <- <- _]. split; [by left|done].
      * intros [= <- <- <- _]. split; [by left|done].
    + intros [= <- <- <- _]. split; [by right; right|done].
  - intros [= <- <- <- _]. split; [by right; left|done].
Qed.

(** X5. Whatever the platform and the system, a sequence of calls of
    [getSymbols] in a process that has not loaded the table yet only ever
    returns the codes 0, -1 and -2, never -3. On a platform without [nm]
    every call that returns hands back -1 with the vectors as they were,
    and [popen] is never called. *)
Theorem getSymbols_codes cfg ws st stn results :
  loaded st = false ->
  getSymbols_calls cfg ws st = Done (stn, results) ->
  Forall (fun r => r.2 = 0 \/ r.2 = -1 \/ r.2 = -2) results /\
  (use_nm cfg = false ->
   Forall (fun r => r = (address (data st), type (data st), obj (data st), -1))
          results /\
   popen_log stn = popen_log st).
Proof.
  intros Hl. unfold getSymbols_calls. destruct ws as [|w ws].
  { intros [= <- <-]. split; [constructor|]. intros _. split; [constructor|done]. }
  cbn [getSymbols_run].
  destruct (getSymbols2_run cfg w st) as [[st1 f]| |] eqn:Hrun;
    [|unfold getSymbols; rewrite Hrun; done..].
  destruct (getSymbols_cases _ _ _ _ _ Hrun) as (c & -> & Hc). cbn [obind].
  unfold getSymbols2_run in Hrun. rewrite Hl in Hrun.
  destruct (load_symbols cfg w (global_exe_name st) (data st))
    as [[[[d' cmds] u] f']| |] eqn:Hload; [|done..].
  cbn [obind] in Hrun. injection Hrun as <- <-.
  match goal with
  | |- context [getSymbols_run cfg ws ?s] =>
      destruct (getSymbols_run_loaded cfg ws s eq_refl) as (cs & -> & Hall)
  end.
  cbn [obind data fst snd] in *. intros [= <- <-].
  destruct (load_symbols_codes _ _ _ _ _ _ _ _ Hload) as (Hcode & Hwin).
  assert (Forall (fun r => r = getSymbols_result d') (returned (c :: cs)))
    as Hsame.
  { apply (returned_same _ (fun _ => True) (w :: ws)).
    constructor; [destruct Hc as [->|[-> _]]; [by left|by right]|].
    eapply Forall2_impl; [exact Hall|].
    intros w' c' [->|[-> _]]; [by left|by right]. }
  split.
  - eapply Forall_impl; [exact Hsame|]. by intros r ->.
  - intros Hno. destruct (Hwin Hno) as [-> ->]. split.
    + eapply Forall_impl; [exact Hsame|]. by intros r ->.
    + cbn [popen_log]. by rewrite app_nil_r.
Qed.

Lemma getSymbols_codes_witness :
  exists stn,
    getSymbols_calls {| target := Windows; gnu_source := false; use_abi := false |}
      [quiet_world "x"; quiet_world "y"] (initial_state "C:\app.exe")
    = Done (stn, [([], [], [], -1); ([], [], [], -1)]) /\
    popen_log stn = [].
Proof.
  eexists. split; [vm_compute; reflexivity|].
  refine (proj2 (proj2 (getSymbols_codes
                          {| target := Windows; gnu_source := false;
                             use_abi := false |}
                          [quiet_world "x"; quiet_world "y"]
                          (initial_state "C:\app.exe") _ _ eq_refl _)
                   eq_refl)).
  vm_compute. reflexivity.
Defined.

(** *** More on the terminate path *)

(** X6. [terminate] never returns normally: its first calls take the
    mutex and clear the error handler, and its last call is either
    [std::abort], made right after the mutex is released, or an
    [MPI_Abort] that does not return. At most one message reaches the
    error stream, and it is [err.what()]. *)
Theorem terminate_ends_the_process cfg w st :
  (exists rest,
      (terminate cfg w st).2
      = terminate_mutex_lock :: clearErrorHandler :: rest) /\
  ((exists pre,
       (terminate cfg w st).2 = pre ++ [terminate_mutex_unlock; std_abort]) \/
   (mpi_abort_returns w = false /\ use_mpi cfg = true /\
    exists pre, (terminate cfg w st).2 = pre ++ [MPI_Abort])) /\
  (error_stream (terminate cfg w st).2 = [] \/
   error_stream (terminate cfg w st).2 = [what w]).
Proof.
  assert (forall pre, exists pre',
             pre ++ callAbort cfg = pre' ++ [terminate_mutex_unlock; std_abort])
    as Hend.
  { intros pre. unfold callAbort. destruct (use_gcov cfg).
    - exists (pre ++ [gcov_dump]). by rewrite <- app_assoc.
    - exists pre. done. }
  unfold terminate.
  destruct (1 <? force_exit st); [|destruct (abort_throwException st)]; cbn [negb].
  - split; [eexists; reflexivity|]. split.
    + left. apply (Hend [terminate_mutex_lock; clearErrorHandler]).
    + left. cbn. apply error_stream_callAbort.
  - split; [eexists; reflexivity|]. split.
    + left.
      apply (Hend [terminate_mutex_lock; clearErrorHandler; perr (what w);
                   perr_flush]).
    + right. cbn. by rewrite error_stream_callAbort.
  - destruct (use_mpi cfg) eqn:Hmpi; cbn [andb];
      [destruct (mpi_initialized w && negb (mpi_finalized w))%bool;
       [destruct (mpi_abort_returns w) eqn:Hret|]|].
    + split; [eexists; reflexivity|]. split.
      * left.
        apply (Hend [terminate_mutex_lock; clearErrorHandler; perr (what w);
                     clearMPIErrorHandler; MPI_Abort]).
      * right. cbn. by rewrite error_stream_callAbort.
    + split; [eexists; reflexivity|]. split.
      * right. split; [done|]. split; [done|].
        by exists [terminate_mutex_lock; clearErrorHandler; perr (what w);
                   clearMPIErrorHandler].
      * right. reflexivity.
    + split; [eexists; reflexivity|]. split.
      * left.
        apply (Hend [terminate_mutex_lock; clearErrorHandler; perr (what w)]).
      * right. cbn. by rewrite error_stream_callAbort.
    + split; [eexists; reflexivity|]. split.
      * left.
        apply (Hend [terminate_mutex_lock; clearErrorHandler; perr (what w)]).
      * right. cbn. by rewrite error_stream_callAbort.
Qed.

Lemma error_stream_app evs1 evs2 :
  error_stream (evs1 ++ evs2) = error_stream evs1 ++ error_stream evs2.
Proof.
  induction evs1 as [|e evs1 IH]; [done|].
  destruct e; simpl; by rewrite ?IH.
Qed.

(** X7. When exceptions are not requested, a first entry into
    [terminate] arms the guard: the message is written once, [force_exit]
    becomes 2, and a second entry, whatever error it is given, writes
    nothing. *)
Theorem terminate_reentry_prints_once cfg w1 w2 st :
  abort_throwException st = false -> force_exit st <= 1 ->
  error_stream (terminate_twice cfg w1 w2 st).2 = [what w1] /\
  force_exit (terminate_twice cfg w1 w2 st).1 = 2.
Proof.
  intros Hthrow Hforce. unfold terminate_twice.
  destruct (terminate cfg w1 st) as [st1 evs1] eqn:H1.
  assert (force_exit st1 = 2 /\ error_stream evs1 = [what w1]) as [Hf He].
  { unfold terminate in H1.
    destruct (Z.ltb_spec 1 (force_exit st)); [lia|].
    rewrite Hthrow in H1. cbn [negb] in H1.
    destruct (use_mpi cfg && mpi_initialized w1 && negb (mpi_finalized w1))%bool;
      [destruct (mpi_abort_returns w1)|];
      injection H1 as <- <-; (split; [done|]); cbn;
      by rewrite ?error_stream_app, ?error_stream_callAbort. }
  unfold terminate.
  destruct (Z.ltb_spec 1 (force_exit st1)); [|lia].
  cbn [fst snd].
  rewrite error_stream_app, He. cbn. rewrite error_stream_callAbort.
  done.
Qed.

Lemma terminate_reentry_prints_once_witness :
  error_stream
    (terminate_twice {| use_gcov := false; use_mpi := false |}
       {| what := "first"; mpi_initialized := false; mpi_finalized := false;
          mpi_abort_returns := true |}
       {| what := "second"; mpi_initialized := false; mpi_finalized := false;
          mpi_abort_returns := true |}
       {| abort_throwException := false; force_exit := 0 |}).2
  = ["first"].
Proof.
  refine (proj1 (terminate_reentry_prints_once
                   {| use_gcov := false; use_mpi := false |} _ _
                   {| abort_throwException := false; force_exit := 0 |}
                   eq_refl _)).
  simpl. lia.
Defined.

Lemma terminate_throw_mode cfg w st :
  abort_throwException st = true -> force_exit st <= 1 ->
  terminate cfg w st
  = (st, [terminate_mutex_lock; clearErrorHandler]
           ++ [perr (what w); perr_flush] ++ callAbort cfg).
Proof.
  intros Ht Hf. unfold terminate.
  destruct (Z.ltb_spec 1 (force_exit st)); [lia|]. by rewrite Ht.
Qed.

(** X8. After [setAbortBehavior] has requested exceptions, [terminate]
    leaves [force_exit] as it is: the guard is not armed, and a second
    entry writes its message as well. *)
Theorem terminate_throw_mode_not_guarded cfg w1 w2 st :
  force_exit st <= 1 ->
  error_stream (terminate_twice cfg w1 w2 (setAbortBehavior true st)).2
  = [what w1; what w2] /\
  (terminate_twice cfg w1 w2 (setAbortBehavior true st)).1
  = setAbortBehavior true st.
Proof.
  intros Hforce. unfold terminate_twice.
  rewrite !terminate_throw_mode by done. cbn [fst snd]. split; [|done].
  rewrite error_stream_app. cbn. by rewrite !error_stream_callAbort.
Qed.

Lemma terminate_throw_mode_not_guarded_witness :
  error_stream
    (terminate_twice {| use_gcov := false; use_mpi := true |}
       {| what := "first"; mpi_initialized := true; mpi_finalized := false;
          mpi_abort_returns := true |}
       {| what := "second"; mpi_initialized := true; mpi_finalized := false;
          mpi_abort_returns := true |}
       (setAbortBehavior true
          {| abort_throwException := false; force_exit := 0 |})).2
  = ["first"; "second"].
Proof.
  refine (proj1 (terminate_throw_mode_not_guarded _ _ _ _ _)). simpl. lia.
Defined.

(** *** The calls of GetModuleListTH32 *)

Lemma calls_app e evs1 evs2 :
  calls e (evs1 ++ evs2) = (calls e evs1 + calls e evs2)%nat.
Proof. apply count_occ_app. Qed.

Lemma calls_LoadModule e ms :
  (forall m, e <> LoadModule m) -> calls e (map LoadModule ms) = O.
Proof.
  intros He. induction ms as [|m ms IH]; [done|].
  unfold calls. cbn [map]. rewrite count_occ_cons_neq; [apply IH|].
  intros Heq. apply (He m). by symmetry.
Qed.

Lemma loaded_modules_app evs1 evs2 :
  loaded_modules (evs1 ++ evs2) = loaded_modules evs1 ++ loaded_modules evs2.
Proof. apply omap_app. Qed.

Lemma loaded_modules_LoadModule ms : loaded_modules (map LoadModule ms) = ms.
Proof.
  induction ms as [|m ms IH]; [done|].
  change (loaded_modules (map LoadModule (m :: ms)))
    with (m :: loaded_modules (map LoadModule ms)).
  by rewrite IH.
Qed.

(** The trace of [GetModuleListTH32], case by case. *)
Lemma GetModuleListTH32_cases env :
  let finish d lib pre :=
    match snapshot lib with
    | None => (false, pre ++ [CreateToolhelp32Snapshot d; FreeLibrary d])
    | Some ms => (0 <? Z.of_nat (length ms),
                  pre ++ CreateToolhelp32Snapshot d :: map LoadModule ms
                      ++ [CloseHandle; FreeLibrary d])
    end in
  let second pre :=
    match env tlhelp32_dll with
    | None => (false, pre ++ [LoadLibrary tlhelp32_dll])
    | Some lib =>
        if complete_dll lib
        then finish tlhelp32_dll lib
               (pre ++ LoadLibrary tlhelp32_dll :: get_procs tlhelp32_dll)
        else (false, pre ++ LoadLibrary tlhelp32_dll
                         :: get_procs tlhelp32_dll
                         ++ [FreeLibrary tlhelp32_dll])
    end in
  GetModuleListTH32 env
  = match env kernel32_dll with
    | None => second [LoadLibrary kernel32_dll]
    | Some lib =>
        if complete_dll lib
        then finish kernel32_dll lib
               (LoadLibrary kernel32_dll :: get_procs kernel32_dll)
        else second (LoadLibrary kernel32_dll :: get_procs kernel32_dll
                       ++ [FreeLibrary kernel32_dll])
    end.
Proof.
  unfold GetModuleListTH32. cbn [try_dlls]. unfold complete_dll.
  destruct (env kernel32_dll) as [lib|];
    [destruct (has_CreateToolhelp32Snapshot lib && has_Module32First lib
               && has_Module32Next lib)%bool|];
    try (destruct (snapshot lib); reflexivity);
    (destruct (env tlhelp32_dll) as [lib2|];
     [destruct (has_CreateToolhelp32Snapshot lib2 && has_Module32First lib2
                && has_Module32Next lib2)%bool|];
     try (destruct (snapshot lib2)); cbn; rewrite <- ?app_assoc; reflexivity).
Qed.

Lemma calls_cons e a evs :
  calls e (a :: evs)
  = ((if win_event_eq_dec a e then 1 else 0) + calls e evs)%nat.
Proof. unfold calls. simpl. by destruct (win_event_eq_dec a e). Qed.

(** Splits a count over a trace built from literal calls and the
    [LoadModule] calls of a snapshot. *)
Ltac count_calls :=
  unfold get_procs;
  repeat first
    [ rewrite calls_app
    | rewrite calls_cons
    | rewrite calls_LoadModule by (intros ?; discriminate) ];
  change (calls _ []) with O.

(** X9. [GetModuleListTH32] leaks no handle: each of the two libraries is
    loaded at most once and freed exactly as often as its [LoadLibrary]
    succeeded, and [CloseHandle] is called exactly as often as a snapshot
    was created and was valid. *)
Theorem th32_handles_balanced env d :
  (calls (LoadLibrary d) (GetModuleListTH32 env).2 <= 1)%nat /\
  calls (FreeLibrary d) (GetModuleListTH32 env).2
  = match env d with
    | Some _ => calls (LoadLibrary d) (GetModuleListTH32 env).2
    | None => O
    end /\
  calls CloseHandle (GetModuleListTH32 env).2
  = match used_dll env with
    | None => O
    | Some u =>
        match env u with
        | Some lib => match snapshot lib with
                      | Some _ => 1%nat
                      | None => O
                      end
        | None => O
        end
    end.
Proof.
  unfold used_dll.
  rewrite GetModuleListTH32_cases. cbn [try_dlls]. unfold complete_dll.
  destruct (env kernel32_dll) as [lib|] eqn:Hk;
    [destruct (has_CreateToolhelp32Snapshot lib && has_Module32First lib
               && has_Module32Next lib)%bool|].
  - (* kernel32.dll is complete *)
    cbn [fst]. rewrite Hk.
    destruct (snapshot lib) as [ms|]; cbn [snd]; destruct d; rewrite ?Hk;
      try (destruct (env tlhelp32_dll));
      count_calls; vm_compute; split_and!; (done || lia).
  - (* kernel32.dll is partial *)
    destruct (env tlhelp32_dll) as [lib2|] eqn:Ht;
      [destruct (has_CreateToolhelp32Snapshot lib2 && has_Module32First lib2
                 && has_Module32Next lib2)%bool|];
      cbn [fst]; rewrite ?Ht;
      try (destruct (snapshot lib2) as [ms|]); cbn [snd];
      destruct d; rewrite ?Hk, ?Ht;
      count_calls; vm_compute; split_and!; (done || lia).
  - (* kernel32.dll does not load *)
    destruct (env tlhelp32_dll) as [lib2|] eqn:Ht;
      [destruct (has_CreateToolhelp32Snapshot lib2 && has_Module32First lib2
                 && has_Module32Next lib2)%bool|];
      cbn [fst]; rewrite ?Ht;
      try (destruct (snapshot lib2) as [ms|]); cbn [snd];
      destruct d; rewrite ?Hk, ?Ht;
      count_calls; vm_compute; split_and!; (done || lia).
Qed.

(** X10. [GetModuleListTH32] hands every module of the snapshot of the
    chosen library to [LoadModule], once and in the order of the
    snapshot, and no other; it returns TRUE exactly when there was at
    least one. *)
Theorem th32_loads_the_snapshot env :
  loaded_modules (GetModuleListTH32 env).2 = snapshot_modules env /\
  (GetModuleListTH32 env).1 = bool_decide (snapshot_modules env <> []).
Proof.
  unfold snapshot_modules, used_dll.
  rewrite GetModuleListTH32_cases. cbn [try_dlls]. unfold complete_dll.
  destruct (env kernel32_dll) as [lib|] eqn:Hk;
    [destruct (has_CreateToolhelp32Snapshot lib && has_Module32First lib
               && has_Module32Next lib)%bool|];
    [|destruct (env tlhelp32_dll) as [lib2|] eqn:Ht;
      [destruct (has_CreateToolhelp32Snapshot lib2 && has_Module32First lib2
                 && has_Module32Next lib2)%bool|]..];
    cbn [fst snd];
    rewrite ?Hk, ?Ht;
    try (destruct (snapshot lib) as [ms|]);
    try (destruct (snapshot lib2) as [ms2|]);
    cbn [fst snd default];
    unfold get_procs;
    rewrite ?loaded_modules_app; cbn [app];
    try (change (loaded_modules (?a :: ?l)) with (loaded_modules l));
    repeat (rewrite ?loaded_modules_app, ?loaded_modules_LoadModule; cbn);
    rewrite ?loaded_modules_app, ?loaded_modules_LoadModule, ?app_nil_r;
    try (split; [done|]); try done;
    try (destruct ms; done); try (destruct ms2; done).
Qed.

(** *** More on the resolver *)

Lemma signed64_small z : 0 <= z < 2 ^ 63 -> signed64 z = z.
Proof.
  intros H. unfold signed64. rewrite Z.mod_small by lia. lia.
Qed.

(** X11. For two addresses below [2^63] (where the subtraction in
    [long long] does not overflow) [subtractAddress] is the absolute
    difference, whichever of the two is larger. *)
Theorem subtractAddress_abs a b :
  0 <= a < 2 ^ 63 -> 0 <= b < 2 ^ 63 ->
  subtractAddress a b = Z.abs (a - b) /\
  subtractAddress a b = subtractAddress b a.
Proof.
  intros Ha Hb.
  assert (forall x y, 0 <= x < 2 ^ 63 -> 0 <= y < 2 ^ 63 ->
                      subtractAddress x y = Z.abs (x - y)) as Habs.
  { intros x y Hx Hy. unfold subtractAddress.
    rewrite (signed64_small x), (signed64_small y) by done.
    unfold signed64. rewrite (Z.mod_small (x - y + 2 ^ 63)) by lia.
    replace (x - y + 2 ^ 63 - 2 ^ 63) with (x - y) by lia.
    apply wrap64_small. lia. }
  split; [by apply Habs|].
  rewrite !Habs by done. lia.
Qed.

Lemma subtractAddress_abs_witness :
  subtractAddress 4198742 4194304 = Z.abs (4198742 - 4194304) /\
  subtractAddress 4198742 4194304 = subtractAddress 4194304 4198742.
Proof. apply subtractAddress_abs; lia. Defined.

(** [getFileAndLine] writes [function], [filename] and [line] only, and
    [function] only when it was empty. *)
Lemma getFileAndLine_frame cfg w info info' :
  getFileAndLine cfg w info = Done info' ->
  address_ info' = address_ info /\ address2 info' = address2 info /\
  object info' = object info /\
  (function info <> "" -> function info' = function info).
Proof.
  unfold getFileAndLine.
  destruct (target cfg); [|by intros [= <-]..].
  set (cmd := addr2line_command _ _).
  destruct (Z.of_nat (String.length cmd) <? Z.of_nat buf_size); [|done].
  destruct (popen_out w cmd) as [out|]; [|by intros [= <-]].
  set (buf0 := take 4095 (store cmd (fresh_buf w)) ++ [NUL]).
  destruct (fgets 4095 out buf0) as [[buf1 rtn1] f1].
  set (info1 := if (String.eqb (function info) "" && rtn1)%bool
                then set_function (drop_last (cstr_at buf1 0)) info
                else info).
  assert (address_ info1 = address_ info /\ address2 info1 = address2 info /\
          object info1 = object info /\
          (function info <> "" -> function info1 = function info)) as Hinfo1.
  { unfold info1. destruct (String.eqb_spec (function info) ""); [|done].
    destruct rtn1; done. }
  destruct (fgets 4095 f1 buf1) as [[buf2 rtn2] f2].
  destruct (at_ buf2 0) as [b0| |]; cbn [obind]; [|intros [=]..].
  destruct (negb (Ascii.eqb b0 "?") && negb (Ascii.eqb b0 NUL) && rtn2)%bool.
  - destruct (find_colon buf2 0 + 1 <? Z.of_nat buf_size); [|done].
    by intros [= <-].
  - by intros [= <-].
Qed.

Lemma getDataFromGlobalSymbols_frame cfg w st info st' info' :
  getDataFromGlobalSymbols cfg w st info = Done (st', info') ->
  getSymbols2 cfg w st = Done st' /\
  address_ info' = address_ info /\ address2 info' = address2 info /\
  function info' = function info.
Proof.
  unfold getDataFromGlobalSymbols.
  destruct (getSymbols2 cfg w st) as [st1| |]; [|done..]. cbn [obind].
  destruct (error (data st1) =? 0); [|by intros [= <- <-]].
  destruct (findfirst _ _) as [index| |]; [|done..]. cbn [obind].
  destruct (0 <? index); [|by intros [= <- <-]].
  destruct (at_ _ _) as [o| |]; [|done..]. by intros [= <- <-].
Qed.

(** X12. When the loader knows the address, [getStackInfo] leaves the
    symbol cache alone (the state is unchanged, [nm] is not run), and the
    frame carries the address asked for, the loader's file name as
    [object], the distance to the base of that file as [address2], and
    the loader's symbol name (demangled when that succeeds) as [function]
    whenever that name is not empty: the name that [addr2line] prints does
    not replace it. *)
Theorem getStackInfo_loader_hit cfg w st a dl st' info :
  (gnu_source cfg || match target cfg with Mac => true | _ => false end)%bool
  = true ->
  dladdr w a = Some dl ->
  getStackInfo cfg w st a = Done (st', info) ->
  st' = st /\ address_ info = a /\
  object info = c_str (dli_fname dl) /\
  address2 info = subtractAddress a (dli_fbase dl) /\
  let name :=
    match (if use_abi cfg then cxa_demangle w (dli_sname dl) else None),
          dli_sname dl with
    | Some demangled, _ => c_str demangled
    | None, Some sname => c_str sname
    | None, None => ""
    end in
  (name <> "" -> function info = name).
Proof.
  intros Hgnu Hdl. unfold getStackInfo. rewrite Hgnu, Hdl.
  set (info1 := set_object _ _).
  set (info2 := if use_abi cfg then _ else _).
  destruct (getFileAndLine cfg w info2) as [i1| |] eqn:Hg; [|done..].
  cbn [obind]. intros [= <- <-].
  apply getFileAndLine_frame in Hg as (Ha & Ha2 & Ho & Hf).
  assert (address_ info2 = a /\ object info2 = c_str (dli_fname dl) /\
          address2 info2 = subtractAddress a (dli_fbase dl)) as (H1 & H2 & H3).
  { unfold info2.
    destruct (use_abi cfg);
      [destruct (cxa_demangle w (dli_sname dl))|];
      destruct (dli_sname dl); done. }
  rewrite Ha, Ha2, Ho. do 4 (split; [done|]).
  cbv zeta. intros Hname.
  assert (function info2
          = match (if use_abi cfg then cxa_demangle w (dli_sname dl) else None),
                  dli_sname dl with
            | Some demangled, _ => c_str demangled
            | None, Some sname => c_str sname
            | None, None => ""
            end) as Hfn.
  { unfold info2.
    destruct (use_abi cfg);
      [destruct (cxa_demangle w (dli_sname dl))|];
      destruct (dli_sname dl); done. }
  rewrite Hf; [exact Hfn|by rewrite Hfn].
Qed.

Lemma getStackInfo_loader_hit_witness :
  exists info,
    getStackInfo linux_build
      {| popen_out := fun _ => Some (line_of "other" +:+ line_of "/src/a.c:57");
         bad_alloc := None; stack_bytes := [];
         dladdr := fun _ => Some {| dli_fname := "/lib/libm.so";
                                    dli_fbase := 4194304;
                                    dli_sname := Some "_Z3foov" |};
         cxa_demangle := fun _ => Some "foo()" |}
      (initial_state "/bin/app") 4198742
    = Done (initial_state "/bin/app", info) /\
    function info = "foo()" /\ address2 info = 4438 /\ line info = 57.
Proof.
  eexists. split; [vm_compute; reflexivity|]. split; [|done].
  refine (proj2 (proj2 (proj2 (proj2
            (getStackInfo_loader_hit linux_build
               {| popen_out := fun _ => Some (line_of "other" +:+ line_of "/src/a.c:57");
                  bad_alloc := None; stack_bytes := [];
                  dladdr := fun _ => Some {| dli_fname := "/lib/libm.so";
                                             dli_fbase := 4194304;
                                             dli_sname := Some "_Z3foov" |};
                  cxa_demangle := fun _ => Some "foo()" |}
               (initial_state "/bin/app") 4198742 _ _ _ eq_refl eq_refl _))))
            _).
  - vm_compute. reflexivity.
  - discriminate.
Defined.

(** *** The call stack *)

Lemma getSymbols2_log cfg w st st' :
  getSymbols2 cfg w st = Done st' ->
  (loaded st = true -> st' = st) /\ loaded st' = true /\
  exists cmds, popen_log st' = popen_log st ++ cmds /\ (length cmds <= 1)%nat.
Proof.
  unfold getSymbols2, getSymbols2_run. destruct (loaded st) eqn:Hl.
  - intros [= <-]. split; [done|]. split; [done|].
    exists []. rewrite app_nil_r. split; [done|simpl; lia].
  - destruct (load_symbols cfg w (global_exe_name st) (data st))
      as [[[[d cmds] u] f]| |] eqn:Hload; [|done..].
    cbn [obind]. intros [= <-]. split; [done|]. split; [done|].
    exists cmds. split; [done|].
    unfold load_symbols in Hload.
    destruct (use_nm cfg); [|injection Hload as _ <- _ _; simpl; lia].
    destruct (cmd_fits cfg (global_exe_name st)); [|done].
    destruct (popen_out w _) as [out|];
      [|injection Hload as _ <- _ _; simpl; lia].
    destruct (allocate (bad_alloc w)) as [f0|];
      [destruct (nm_loop _ f0 _) as [[d1 threw] f1]|];
      injection Hload as _ <- _ _; simpl; lia.
Qed.

Lemma getStackInfo_step cfg w st a st' info :
  getStackInfo cfg w st a = Done (st', info) ->
  address_ info = a /\ (st' = st \/ getSymbols2 cfg w st = Done st').
Proof.
  unfold getStackInfo.
  set (info0 := set_address a stack_info_default).
  assert (forall s i,
             (do r <- getDataFromGlobalSymbols cfg w st info0;
              let '(st', info) := r in
              do info <- getFileAndLine cfg w info;
              Done (st', info)) = Done (s, i) ->
             address_ i = a /\ (s = st \/ getSymbols2 cfg w st = Done s))
    as Hpath.
  { intros s i.
    destruct (getDataFromGlobalSymbols cfg w st info0) as [[s1 i0]| |] eqn:Hd;
      [|done..].
    cbn [obind].
    destruct (getFileAndLine cfg w i0) as [i1| |] eqn:Hg; [|done..].
    cbn [obind]. intros [= <- <-].
    apply getDataFromGlobalSymbols_frame in Hd as (Hload & Ha & _).
    apply getFileAndLine_frame in Hg as (Ha' & _).
    split; [by rewrite Ha', Ha|by right]. }
  destruct (gnu_source cfg || match target cfg with Mac => true | _ => false end)%bool;
    [|apply Hpath].
  destruct (dladdr w a) as [dl|]; [|apply Hpath].
  set (info1 := set_object _ _).
  set (info2 := if use_abi cfg then _ else _).
  assert (address_ info2 = a) as H2.
  { unfold info2.
    destruct (use_abi cfg);
      [destruct (cxa_demangle w (dli_sname dl))|];
      destruct (dli_sname dl); done. }
  destruct (getFileAndLine cfg w info2) as [i1| |] eqn:Hg; [|done..].
  cbn [obind]. intros [= <- <-].
  apply getFileAndLine_frame in Hg as (Ha' & _).
  split; [by rewrite Ha'|by left].
Qed.

Lemma getStackInfo_each_spec cfg w st trace st' stack_list :
  getStackInfo_each cfg w st trace = Done (st', stack_list) ->
  map address_ stack_list = trace /\
  (loaded st = true -> st' = st) /\
  exists cmds, popen_log st' = popen_log st ++ cmds /\ (length cmds <= 1)%nat.
Proof.
  revert st st' stack_list.
  induction trace as [|a rest IH]; intros st st' stack_list; simpl.
  - intros [= <- <-]. split; [done|]. split; [done|].
    exists []. rewrite app_nil_r. split; [done|simpl; lia].
  - destruct (getStackInfo cfg w st a) as [[st1 info]| |] eqn:H1; [|done..].
    cbn [obind].
    destruct (getStackInfo_each cfg w st1 rest) as [[st2 l]| |] eqn:H2;
      [|done..].
    cbn [obind]. intros [= <- <-].
    apply getStackInfo_step in H1 as (Ha & Hst).
    apply IH in H2 as (Hmap & Hkeep & cmds2 & Hlog2 & Hlen2).
    split; [simpl; by rewrite Ha, Hmap|].
    destruct Hst as [->|Hload]; [by eauto|].
    apply getSymbols2_log in Hload as (Hsame & Hloaded & cmds1 & Hlog1 & Hlen1).
    rewrite (Hkeep Hloaded). split; [done|]. eauto.
Qed.

(** X13. On Linux and Darwin [getCallStack] returns one frame for each of
    the first 100 return addresses, in the order of [backtrace], each
    frame carrying its address; and however deep the stack is, at most
    one command is handed to [popen] for the symbol table. *)
Theorem getCallStack_frames cfg dbghelp w frames walk fuel st st' stack_list :
  use_nm cfg = true ->
  getCallStack cfg dbghelp w frames walk fuel st = Done (st', stack_list) ->
  map address_ stack_list = take 100 frames /\
  (length stack_list <= 100)%nat /\
  exists cmds, popen_log st' = popen_log st ++ cmds /\ (length cmds <= 1)%nat.
Proof.
  intros Hnm. unfold getCallStack. unfold use_nm in Hnm.
  destruct (target cfg); [| |done];
    intros H; apply getStackInfo_each_spec in H as (Hmap & _ & Hlog);
    (split; [done|]); (split; [|done]);
    rewrite <- (length_map address_), Hmap, length_take; lia.
Qed.

Lemma getCallStack_frames_witness :
  exists st' stack_list,
    getCallStack linux_build false (quiet_world "") [4096; 8192]
      (fun _ => None) 0 (initial_state "/bin/app") = Done (st', stack_list) /\
    map address_ stack_list = [4096; 8192] /\
    popen_log st' = ["nm -n --demangle /bin/app"].
Proof.
  eexists _, _. split; [vm_compute; reflexivity|]. split; [|reflexivity].
  refine (proj1 (getCallStack_frames linux_build false (quiet_world "")
                   [4096; 8192] (fun _ => None) 0 (initial_state "/bin/app")
                   _ _ eq_refl _)).
  vm_compute. reflexivity.
Defined.

Lemma csEntry_of_address fr : address_ (csEntry_of fr) = AddrPC fr.
Proof.
  unfold csEntry_of. destruct (AddrPC fr =? 0); [done|].
  destruct (SymFromAddr fr) as [[? [?|]]|];
    destruct (LineFromAddr fr) as [[? ?]|];
    destruct (ModuleInfo fr); done.
Qed.

Lemma stack_walk_nonzero fuel walk frameNum count acc stack_list :
  stack_walk fuel walk frameNum count acc = Done stack_list ->
  Forall (fun f => address_ f <> 0) acc ->
  Forall (fun f => address_ f <> 0) stack_list.
Proof.
  revert frameNum count acc.
  induction fuel as [|fuel IH]; intros frameNum count acc; simpl; [done|].
  destruct (walk frameNum) as [fr|]; [|by intros [= <-]].
  destruct ((AddrPC fr =? AddrReturn fr) && (1024 <? count))%bool;
    [by intros [= <-]|].
  intros Hwalk Hacc.
  assert (Forall (fun f => address_ f <> 0)
            (if address_ (csEntry_of fr) =? 0 then acc
             else acc ++ [csEntry_of fr])) as Hacc'.
  { destruct (Z.eqb_spec (address_ (csEntry_of fr)) 0); [done|].
    apply Forall_app. split; [done|]. by constructor. }
  destruct (AddrReturn fr =? 0); [by injection Hwalk as <-|].
  eapply IH; eauto.
Qed.

(** X14. On Windows no frame of the call stack has the address 0,
    whatever the walker reports, and the symbol cache is not touched;
    without [DBGHELP] the call stack is empty. *)
Theorem getCallStack_windows cfg dbghelp w frames walk fuel st st' stack_list :
  target cfg = Windows ->
  getCallStack cfg dbghelp w frames walk fuel st = Done (st', stack_list) ->
  st' = st /\
  Forall (fun f => address_ f <> 0) stack_list /\
  (dbghelp = false -> stack_list = []).
Proof.
  intros Hwin. unfold getCallStack. rewrite Hwin.
  destruct dbghelp.
  - destruct (stack_walk fuel walk 0 0 []) as [l| |] eqn:Hw; [|done..].
    cbn [obind]. intros [= <- <-]. split; [done|]. split; [|done].
    eapply stack_walk_nonzero; eauto.
  - intros [= <- <-]. done.
Qed.

Lemma getCallStack_windows_witness :
  exists info,
    getCallStack windows_build true (quiet_world "") [] two_frames 5
      (initial_state "app.exe")
    = Done (initial_state "app.exe", [info]) /\
    address_ info <> 0 /\ function info = "main".
Proof.
  eexists. split; [vm_compute; reflexivity|]. split; [|reflexivity].
  assert (Forall (fun f => address_ f <> 0)
            [{| line := 57; address_ := 4096; address2 := 0;
                object := "app.exe"; filename := "a.cpp";
                function := "main" |}]) as H.
  { refine (proj1 (proj2 (getCallStack_windows windows_build
                            true (quiet_world "") [] two_frames 5
                            (initial_state "app.exe")
                            (initial_state "app.exe") _ eq_refl _))).
    vm_compute. reflexivity. }
  by inversion H.
Defined.

Lemma stack_walk_endless fr k :
  AddrPC fr = AddrReturn fr -> AddrPC fr <> 0 ->
  forall fuel frameNum acc,
    (k < fuel)%nat ->
    stack_walk fuel (endless fr) frameNum (1025 - Z.of_nat k) acc
    = Done (acc ++ replicate k (csEntry_of fr)).
Proof.
  intros Hrec Hpc. induction k as [|k IH]; intros fuel frameNum acc Hfuel.
  - destruct fuel as [|fuel]; [lia|]. simpl.
    rewrite <- Hrec, Z.eqb_refl. simpl. by rewrite app_nil_r.
  - destruct fuel as [|fuel]; [lia|]. cbn [stack_walk endless].
    rewrite <- Hrec at 1. rewrite Z.eqb_refl.
    destruct (Z.ltb_spec 1024 (1025 - Z.of_nat (S k))) as [?|_]; [lia|].
    cbn [andb]. rewrite csEntry_of_address.
    destruct (Z.eqb_spec (AddrPC fr) 0) as [?|_]; [done|].
    rewrite <- Hrec. destruct (Z.eqb_spec (AddrPC fr) 0) as [?|_]; [done|].
    replace (1025 - Z.of_nat (S k) + 1) with (1025 - Z.of_nat k) by lia.
    rewrite Z.eqb_refl, IH by lia. by rewrite <- app_assoc.
Qed.

(** X15. When the Windows walker reports for ever the same frame, whose
    return address is its own program counter, the walk stops by itself:
    with fuel for 1026 rounds [getCallStack] returns exactly 1025 copies
    of that frame. *)
Theorem getCallStack_endless_recursion cfg w frames fr fuel st :
  target cfg = Windows ->
  AddrPC fr = AddrReturn fr -> AddrPC fr <> 0 -> (1025 < fuel)%nat ->
  getCallStack cfg true w frames (endless fr) fuel st
  = Done (st, replicate 1025 (csEntry_of fr)).
Proof.
  intros Hwin Hrec Hpc Hfuel. unfold getCallStack. rewrite Hwin.
  change 0 with (1025 - Z.of_nat 1025) at 1.
  rewrite (stack_walk_endless fr 1025 Hrec Hpc fuel 0%nat [] Hfuel).
  reflexivity.
Qed.

Lemma getCallStack_endless_recursion_witness :
  getCallStack {| target := Windows; gnu_source := false; use_abi := false |}
    true (quiet_world "") []
    (endless {| AddrPC := 4096; AddrReturn := 4096; SymFromAddr := None;
                LineFromAddr := None; ModuleInfo := None |})
    1026 (initial_state "app.exe")
  = Done (initial_state "app.exe",
          replicate 1025
            (csEntry_of {| AddrPC := 4096; AddrReturn := 4096;
                           SymFromAddr := None; LineFromAddr := None;
                           ModuleInfo := None |})).
Proof.
  apply getCallStack_endless_recursion;
    [reflexivity|reflexivity|discriminate|apply Nat.lt_succ_diag_r].
Defined.

(** *** stripPath *)

Lemma to_int_small z : - 2 ^ 31 <= z < 2 ^ 31 -> to_int z = z.
Proof. intros H. unfold to_int. rewrite Z.mod_small by lia. lia. Qed.

Lemma get_in_range s i :
  (i < String.length s)%nat -> exists c, String.get i s = Some c.
Proof.
  revert i. induction s as [|c s IH]; intros i; simpl; [lia|].
  destruct i as [|i]; [eauto|]. intros H. apply IH. lia.
Qed.

Lemma get_app_r d c b j :
  String.get (String.length d + j) (d +:+ String c b)
  = String.get j (String c b).
Proof. induction d as [|x d IH]; simpl; [done|exact IH]. Qed.

Lemma substring_all s : String.substring 0 (String.length s) s = s.
Proof. induction s as [|c s IH]; simpl; [done|by rewrite IH]. Qed.

Lemma substring_app_r d s :
  String.substring (String.length d) (String.length s) (d +:+ s) = s.
Proof.
  induction d as [|x d IH]; simpl; [apply substring_all|exact IH].
Qed.

Lemma substring_split s k :
  (k <= String.length s)%nat ->
  s = String.substring 0 k s +:+ String.substring k (String.length s - k) s.
Proof.
  revert k. induction s as [|c s IH]; intros k Hk; simpl in *.
  - destruct k; [done|lia].
  - destruct k as [|k]; simpl.
    + by rewrite substring_all.
    + f_equal. apply IH. lia.
Qed.

Lemma substring_snoc s i c :
  String.get i s = Some c ->
  String.substring 0 (S i) s = String.substring 0 i s +:+ String c "".
Proof.
  revert i. induction s as [|x s IH]; intros i; simpl; [done|].
  destruct i as [|i].
  - intros [= ->]. by destruct s.
  - intros H. simpl. f_equal. by apply IH.
Qed.

Lemma has_separator_app s t :
  has_separator (s +:+ t) = (has_separator s || has_separator t)%bool.
Proof.
  induction s as [|c s IH]; simpl; [done|]. rewrite IH. by rewrite orb_assoc.
Qed.

Lemma has_separator_get s j c :
  has_separator s = false -> String.get j s = Some c -> is_separator c = false.
Proof.
  revert j. induction s as [|x s IH]; intros j; simpl; [done|].
  intros [Hx Hs]%orb_false_elim. destruct j as [|j]; [by intros [= <-]|].
  by apply IH.
Qed.

Lemma has_separator_suffix s k :
  (forall j c, (k <= j)%nat -> String.get j s = Some c ->
               is_separator c = false) ->
  has_separator (String.substring k (String.length s - k) s) = false.
Proof.
  revert k. induction s as [|x s IH]; intros k H; simpl.
  - by destruct k.
  - destruct k as [|k]; simpl.
    + rewrite (H 0%nat x) by (done || lia). simpl.
      rewrite <- (Nat.sub_0_r (String.length s)). apply IH.
      intros j c _ Hj. apply (H (S j)); [lia|done].
    + apply IH. intros j c Hle Hj. apply (H (S j)); [lia|done].
Qed.

(** The loop stops on the last separator before [n], or at -1. *)
Lemma stripPath_loop_spec s n :
  (n <= String.length s)%nat ->
  exists i,
    stripPath_loop s n = Done i /\ -1 <= i < Z.of_nat n /\
    (0 <= i -> exists c, String.get (Z.to_nat i) s = Some c /\
                         is_separator c = true) /\
    (forall j c, i < Z.of_nat j < Z.of_nat n -> String.get j s = Some c ->
                 is_separator c = false).
Proof.
  induction n as [|n IH]; intros Hn; simpl.
  - exists (-1). split; [done|]. split; [lia|]. split; [lia|]. intros; lia.
  - destruct (get_in_range s n) as (c & Hc); [lia|]. rewrite Hc.
    destruct (is_separator c) eqn:Hsep.
    + exists (Z.of_nat n). split; [done|]. split; [lia|]. split.
      * intros _. rewrite Nat2Z.id. eauto.
      * intros; lia.
    + destruct IH as (i & -> & Hi & Hsepi & Hafter); [lia|].
      exists i. split; [done|]. split; [lia|]. split; [done|].
      intros j c' Hj Hget.
      destruct (decide (j = n)) as [->|Hne]; [congruence|].
      apply (Hafter j c'); [lia|done].
Qed.

(** X16. For a name of fewer than [2^31] characters [stripPath]
    returns the part after the last slash or backslash: the name is a
    directory part followed by the result, the result holds no separator,
    and the directory part is empty or ends with a separator. A name
    without separator comes back whole. *)
Theorem stripPath_after_last_separator (s : string) :
  Z.of_nat (String.length s) < 2 ^ 31 ->
  exists dir r,
    stripPath s = Done r /\ s = dir +:+ r /\ has_separator r = false /\
    (dir = "" \/ exists d c, dir = d +:+ String c "" /\ is_separator c = true) /\
    (has_separator s = false -> r = s).
Proof.
  intros Hlen. unfold stripPath.
  destruct (String.eqb_spec s "") as [->|Hne].
  { exists "", "". split_and!; try done. by left. }
  assert (0 < String.length s)%nat as Hpos by (destruct s; [done|simpl; lia]).
  rewrite (to_int_small (Z.of_nat (String.length s))) by lia.
  rewrite (to_int_small (Z.of_nat (String.length s) - 1)) by lia.
  destruct (Z.ltb_spec (Z.of_nat (String.length s) - 1) 0) as [?|_]; [lia|].
  replace (S (Z.to_nat (Z.of_nat (String.length s) - 1)))
    with (String.length s) by lia.
  destruct (stripPath_loop_spec s (String.length s))
    as (i & -> & Hi & Hsep & Hafter); [lia|].
  cbn [obind]. rewrite (to_int_small (i + 1)) by lia.
  rewrite Z.max_r by lia.
  set (k := Z.to_nat (i + 1)).
  assert (k <= String.length s)%nat as Hk by lia.
  exists (String.substring 0 k s),
         (String.substring k (String.length s - k) s).
  assert (has_separator (String.substring k (String.length s - k) s) = false)
    as Hclean.
  { apply has_separator_suffix. intros j c Hj Hget.
    apply (Hafter j c); [|done].
    assert (j < String.length s)%nat.
    { destruct (Nat.lt_ge_cases j (String.length s)) as [?|Hge]; [done|].
      clear -Hget Hge. exfalso. revert j Hget Hge.
      induction s as [|x s IH]; intros j; simpl; [done|].
      destruct j as [|j]; [simpl; lia|]. intros H ?. apply (IH j H). simpl in *. lia. }
    lia. }
  split; [done|]. split; [by apply substring_split|]. split; [done|].
  assert (String.substring 0 k s = ""
          \/ exists d c, String.substring 0 k s = d +:+ String c ""
                         /\ is_separator c = true) as Hdir.
  { destruct (Z.eq_dec i (-1)) as [->|Hge].
    - left. unfold k. simpl. by destruct s.
    - right. destruct Hsep as (c & Hc & Hs); [lia|].
      exists (String.substring 0 (Z.to_nat i) s), c. split; [|done].
      unfold k. replace (Z.to_nat (i + 1)) with (S (Z.to_nat i)) by lia.
      by apply substring_snoc. }
  split; [exact Hdir|].
  intros Hnone. destruct Hdir as [Hd|(d & c & Hd & Hc)].
  - transitivity (String.substring 0 k s
                  +:+ String.substring k (String.length s - k) s);
      [by rewrite Hd|symmetry; by apply substring_split].
  - exfalso. rewrite (substring_split s k Hk), Hd in Hnone.
    rewrite !has_separator_app in Hnone. simpl in Hnone.
    rewrite Hc in Hnone. by rewrite orb_true_r in Hnone.
Qed.

Lemma stripPath_after_last_separator_witness :
  exists dir r,
    stripPath "/usr/lib/libm.so" = Done r /\
    "/usr/lib/libm.so" = dir +:+ r /\ has_separator r = false.
Proof.
  destruct (stripPath_after_last_separator "/usr/lib/libm.so")
    as (dir & r & H1 & H2 & H3 & _).
  - simpl. lia.
  - exists dir, r. done.
Defined.

Lemma stripPath_loop_base d sep b m :
  is_separator sep = true -> has_separator b = false ->
  (m <= String.length b)%nat ->
  stripPath_loop (d +:+ String sep b) (String.length d + 1 + m)
  = Done (Z.of_nat (String.length d)).
Proof.
  intros Hsep Hb. induction m as [|m IH]; intros Hm.
  - replace (String.length d + 1 + 0)%nat with (S (String.length d)) by lia.
    simpl. rewrite <- (Nat.add_0_r (String.length d)) at 1.
    rewrite get_app_r. simpl. by rewrite Hsep.
  - replace (String.length d + 1 + S m)%nat
      with (S (String.length d + 1 + m)) by lia.
    cbn [stripPath_loop].
    replace (String.length d + 1 + m)%nat
      with (String.length d + S m)%nat at 1 by lia.
    rewrite get_app_r. simpl.
    destruct (get_in_range b m) as (c & Hc); [lia|]. rewrite Hc.
    rewrite (has_separator_get b m c Hb Hc). apply IH. lia.
Qed.

Lemma length_append s t :
  String.length (s +:+ t) = (String.length s + String.length t)%nat.
Proof. induction s as [|c s IH]; simpl; [done|by rewrite IH]. Qed.

(** X17. [stripPath] of a directory, a slash or backslash and a base name
    without separators is the base name, for names shorter than [2^31]
    characters. *)
Theorem stripPath_basename (d : string) (sep : ascii) (b : string) :
  is_separator sep = true -> has_separator b = false ->
  Z.of_nat (String.length (d +:+ String sep b)) < 2 ^ 31 ->
  stripPath (d +:+ String sep b) = Done b.
Proof.
  intros Hsep Hb Hlen. unfold stripPath.
  destruct (String.eqb_spec (d +:+ String sep b) "") as [He|_].
  { by destruct d. }
  pose proof (length_append d (String sep b)) as Hl. simpl in Hl.
  rewrite (to_int_small (Z.of_nat (String.length (d +:+ String sep b)))) by lia.
  rewrite (to_int_small (Z.of_nat (String.length (d +:+ String sep b)) - 1))
    by lia.
  destruct (Z.ltb_spec (Z.of_nat (String.length (d +:+ String sep b)) - 1) 0)
    as [?|_]; [lia|].
  replace (S (Z.to_nat (Z.of_nat (String.length (d +:+ String sep b)) - 1)))
    with (String.length d + 1 + String.length b)%nat by lia.
  rewrite stripPath_loop_base by (done || lia). cbn [obind].
  rewrite (to_int_small (Z.of_nat (String.length d) + 1)) by lia.
  rewrite Z.max_r by lia.
  replace (Z.to_nat (Z.of_nat (String.length d) + 1))
    with (String.length (d +:+ String sep "")).
  2:{ rewrite length_append. simpl. lia. }
  replace (String.length (d +:+ String sep b)
           - String.length (d +:+ String sep ""))%nat
    with (String.length b).
  2:{ rewrite Hl, length_append. simpl. lia. }
  replace (d +:+ String sep b) with ((d +:+ String sep "") +:+ b).
  2:{ clear. induction d as [|x d IH]; simpl; [done|by rewrite IH]. }
  by rewrite substring_app_r.
Qed.

Lemma stripPath_basename_witness :
  stripPath "C:\src\StackTrace.cpp" = Done "StackTrace.cpp".
Proof.
  apply (stripPath_basename "C:\src" "\" "StackTrace.cpp");
    [reflexivity|reflexivity|simpl; lia].
Defined.

(** *** Reading the answer of addr2line *)

Lemma fgets_line n l rest buf :
  count_char LF l = O -> Z.of_nat (String.length l) < n - 1 ->
  fgets n (l +:+ String LF rest) buf
  = (store (l +:+ String LF "") buf, true, rest).
Proof.
  intros Hc Hlen. unfold fgets.
  rewrite fgets_take_line by done. by destruct l.
Qed.

Lemma list_ascii_of_string_app s t :
  list_ascii_of_string (s +:+ t)
  = list_ascii_of_string s ++ list_ascii_of_string t.
Proof. induction s as [|c s IH]; simpl; [done|by rewrite IH]. Qed.

Lemma find_colon_app f rest i :
  count_char ":" f = O -> i + Z.of_nat (String.length f) < 4095 ->
  find_colon (list_ascii_of_string f ++ ":"%char :: rest) i
  = i + Z.of_nat (String.length f).
Proof.
  revert i. induction f as [|c f IH]; intros i; simpl.
  - intros _ H. destruct (Z.leb_spec 4095 i); lia.
  - destruct (Ascii.eqb c ":"); [done|]. intros Hc Hlen.
    destruct (Z.leb_spec 4095 i); [lia|].
    rewrite IH by (done || lia). lia.
Qed.

Lemma c_str_until_nul s junk :
  count_char NUL s = O ->
  c_str (string_of_list_ascii (list_ascii_of_string s ++ NUL :: junk)) = s.
Proof.
  induction s as [|c s IH]; simpl; [done|].
  destruct (Ascii.eqb c NUL); [done|]. intros H. by rewrite IH.
Qed.

Lemma first_char_app s t : s <> "" -> first_char (s +:+ t) = first_char s.
Proof. by destruct s. Qed.

Lemma first_char_not_nul s :
  s <> "" -> count_char NUL s = O -> first_char s <> NUL.
Proof.
  destruct s as [|c s]; [done|]. simpl.
  destruct (Ascii.eqb_spec c NUL); done.
Qed.

Lemma drop_last_line s : drop_last (s +:+ String LF "") = s.
Proof.
  induction s as [|c s IH]; simpl; [done|]. rewrite IH.
  by destruct s.
Qed.

(** X18. When [addr2line] prints a function line and then a line of the
    form file, colon, text, [getFileAndLine] takes the file part as
    [filename] and [atoi] of the text, reduced to 8 bits, as [line]; the
    file part must be non-empty, hold no colon and not begin with a
    question mark, and the line must fit the buffer. The function line,
    without its newline, becomes [function] when that was empty, and is
    ignored otherwise. *)
Theorem getFileAndLine_parses cfg w info fn f r tail :
  target cfg = Linux ->
  Z.of_nat (String.length
              (addr2line_command (object info)
                 (if find_so (object info) then address2 info
                  else address_ info))) < 4096 ->
  popen_out w (addr2line_command (object info)
                 (if find_so (object info) then address2 info
                  else address_ info))
  = Some (fn +:+ String LF (f +:+ String ":" (r +:+ String LF tail))) ->
  count_char LF fn = O -> Z.of_nat (String.length fn) < 4094 ->
  f <> "" -> first_char f <> "?"%char ->
  count_char ":" f = O -> count_char NUL f = O -> count_char LF f = O ->
  count_char NUL r = O -> count_char LF r = O ->
  Z.of_nat (String.length f + String.length r) < 4093 ->
  exists info',
    getFileAndLine cfg w info = Done info' /\
    filename info' = f /\
    line info' = to_uint8 (atoi (r +:+ String LF "")) /\
    (function info = "" -> count_char NUL fn = O -> function info' = fn) /\
    (function info <> "" -> function info' = function info).
Proof.
  intros Htarget Hcmd Hout Hfn Hfnlen Hf Hq Hcolon Hnul Hlf Hrnul Hrlf Hlen.
  unfold getFileAndLine. rewrite Htarget.
  set (cmd := addr2line_command _ _) in *.
  destruct (Z.ltb_spec (Z.of_nat (String.length cmd)) (Z.of_nat buf_size))
    as [_|?]; [|unfold buf_size in *; lia].
  rewrite Hout.
  set (buf0 := take 4095 (store cmd (fresh_buf w)) ++ [NUL]).
  rewrite fgets_line by (done || lia).
  set (buf1 := store (fn +:+ String LF "") buf0).
  set (info1 := if (String.eqb (function info) "" && true)%bool
                then _ else info).
  assert ((function info = "" -> count_char NUL fn = O -> function info1 = fn)
          /\ (function info <> "" -> function info1 = function info))
    as [Hfun1 Hfun2].
  { unfold info1. destruct (String.eqb_spec (function info) "") as [He|Hne].
    - split; [|done]. intros _ Hfn0. cbn [andb function set_function].
      unfold cstr_at, buf1, store. rewrite drop_0.
      rewrite c_str_until_nul.
      + apply drop_last_line.
      + rewrite count_char_app, Hfn0. reflexivity.
    - split; [done|]. by intros _. }
  clearbody info1.
  assert (String.length (f +:+ String ":" r)
          = S (String.length f + String.length r)) as Hl2.
  { rewrite length_append. simpl. lia. }
  replace (f +:+ String ":" (r +:+ String LF tail))
    with ((f +:+ String ":" r) +:+ String LF tail).
  2:{ clear. induction f as [|c f IH]; simpl; [done|by rewrite IH]. }
  rewrite fgets_line.
  2:{ rewrite count_char_app. simpl. rewrite Hlf, Hrlf. reflexivity. }
  2:{ rewrite Hl2. lia. }
  set (junk := drop (S (String.length ((f +:+ String ":" r) +:+ String LF "")))
                 buf1).
  assert (store ((f +:+ String ":" r) +:+ String LF "") buf1
          = list_ascii_of_string f
              ++ ":"%char :: (list_ascii_of_string (r +:+ String LF "")
                              ++ NUL :: junk)) as ->.
  { unfold store. fold junk.
    rewrite !list_ascii_of_string_app. simpl.
    repeat (rewrite <- app_assoc; simpl). reflexivity. }
  assert (exists c0 f', f = String c0 f') as (c0 & f' & Hfeq)
    by (destruct f; [done|eauto]).
  assert (at_ (list_ascii_of_string f
                 ++ ":"%char :: (list_ascii_of_string (r +:+ String LF "")
                                 ++ NUL :: junk)) 0 = Done (first_char f))
    as -> by (by rewrite Hfeq).
  cbn [obind].
  destruct (Ascii.eqb_spec (first_char f) "?") as [?|_]; [done|].
  pose proof (first_char_not_nul f Hf Hnul).
  destruct (Ascii.eqb_spec (first_char f) NUL) as [?|_]; [done|].
  cbn [negb andb].
  rewrite find_colon_app by (done || lia).
  destruct (Z.ltb_spec (0 + Z.of_nat (String.length f) + 1) (Z.of_nat buf_size))
    as [_|?]; [|unfold buf_size in *; lia].
  eexists. split; [reflexivity|]. cbn [filename line set_file_line].
  replace (Z.to_nat (0 + Z.of_nat (String.length f)))
    with (length (list_ascii_of_string f))
    by (rewrite length_list_ascii_of_string; lia).
  rewrite take_app_length. split; [apply string_of_list_ascii_of_string|].
  split; [|done].
  unfold cstr_at.
  replace (Z.to_nat (0 + Z.of_nat (String.length f) + 1))
    with (length (list_ascii_of_string f ++ [":"%char])).
  2:{ rewrite length_app, length_list_ascii_of_string. simpl. lia. }
  replace (list_ascii_of_string f
             ++ ":"%char :: (list_ascii_of_string (r +:+ String LF "")
                             ++ NUL :: junk))
    with ((list_ascii_of_string f ++ [":"%char])
            ++ (list_ascii_of_string (r +:+ String LF "") ++ NUL :: junk))
    by (by rewrite <- app_assoc).
  rewrite drop_app_length.
  rewrite c_str_until_nul; [done|].
  rewrite count_char_app, Hrnul. reflexivity.
Qed.

Lemma getFileAndLine_parses_witness :
  exists info',
    getFileAndLine linux_build
      (quiet_world (line_of "main" +:+ line_of "/src/main.cpp:300"))
      (set_object "/bin/app" (set_address 4198742 stack_info_default))
    = Done info' /\
    filename info' = "/src/main.cpp" /\ line info' = 44.
Proof.
  destruct (getFileAndLine_parses linux_build
              (quiet_world (line_of "main" +:+ line_of "/src/main.cpp:300"))
              (set_object "/bin/app" (set_address 4198742 stack_info_default))
              "main" "/src/main.cpp" "300" "")
    as (info' & H & Hf & Hl & _);
    try reflexivity; try discriminate; try (simpl; lia).
  exists info'. done.
Defined.

(** X19. When [addr2line] cannot be started, prints fewer than two
    lines, or answers with a second line that begins with a question
    mark, [getFileAndLine] leaves [filename] and [line] as they were: the
    frame is still produced. *)
Theorem getFileAndLine_unknown cfg w info info' :
  (forall o x out, popen_out w (addr2line_command o x) = Some out ->
                   second_line out = "" \/
                   first_char (second_line out) = "?"%char) ->
  getFileAndLine cfg w info = Done info' ->
  filename info' = filename info /\ line info' = line info.
Proof.
  intros Hout. unfold getFileAndLine.
  destruct (target cfg); [|by intros [= <-]..].
  set (cmd := addr2line_command _ _).
  destruct (Z.of_nat (String.length cmd) <? Z.of_nat buf_size); [|done].
  destruct (popen_out w cmd) as [out|] eqn:Hp; [|by intros [= <-]].
  specialize (Hout _ _ _ Hp). unfold second_line in Hout.
  set (buf0 := take 4095 (store cmd (fresh_buf w)) ++ [NUL]).
  destruct out as [|c0 out0].
  { cbn [fgets]. destruct (at_ buf0 0) as [b0| |]; cbn [obind]; [|intros [=]..].
    rewrite !Bool.andb_false_r. by intros [= <-]. }
  destruct (fgets_take (4095 - 1) (String c0 out0)) as [l1 rest1] eqn:E1.
  cbn [snd] in Hout.
  cbn [fgets]. rewrite ?E1. cbn [fgets].
  set (info1 := if (String.eqb (function info) "" && true)%bool
                then set_function (drop_last (cstr_at (store l1 buf0) 0)) info
                else info).
  assert (filename info1 = filename info /\ line info1 = line info) as [Hf Hl].
  { unfold info1. by destruct (String.eqb (function info) "" && true)%bool. }
  destruct rest1 as [|c1 rest1'].
  { cbn [fgets].
    destruct (at_ (store l1 buf0) 0) as [b0| |]; cbn [obind]; [|intros [=]..].
    rewrite !Bool.andb_false_r. intros [= <-]. done. }
  destruct (fgets_take (4095 - 1) (String c1 rest1')) as [l2 rest2] eqn:E2.
  cbn [fst] in Hout.
  cbn [fgets]. rewrite ?E2. cbn [fgets].
  destruct (store_first l2 (store l1 buf0)) as (r & Hst). rewrite Hst.
  assert (at_ (first_char l2 :: r) 0 = Done (first_char l2)) as -> by done.
  cbn [obind].
  assert (Ascii.eqb (first_char l2) "?" = true
          \/ Ascii.eqb (first_char l2) NUL = true) as Hskip.
  { destruct Hout as [Hempty | Hq]; [right; by rewrite Hempty|left].
    by rewrite Hq. }
  assert ((negb (Ascii.eqb (first_char l2) "?")
           && negb (Ascii.eqb (first_char l2) NUL) && true)%bool = false) as ->.
  { destruct Hskip as [Hq | Hn]; [by rewrite Hq|].
    rewrite Hn. by rewrite Bool.andb_false_r. }
  by intros [= <-].
Qed.

Lemma getFileAndLine_unknown_witness :
  exists info',
    getFileAndLine linux_build (quiet_world (line_of "main" +:+ line_of "??:0"))
      (set_address 4096 stack_info_default) = Done info' /\
    filename info' = "" /\ line info' = 0.
Proof.
  eexists. split; [vm_compute; reflexivity|].
  apply (getFileAndLine_unknown linux_build
           (quiet_world (line_of "main" +:+ line_of "??:0"))
           (set_address 4096 stack_info_default)).
  - intros o x out [= <-]. right. vm_compute. reflexivity.
  - vm_compute. reflexivity.
Defined.

(** *** The resolver without its helpers *)

(** X20. On Linux, when the loader does not know the address and neither
    [nm] nor [addr2line] can be started, [getStackInfo] still returns a
    frame: it carries the address and nothing else, and the symbol cache
    records the code -2. *)
Theorem getStackInfo_no_tools cfg w st a :
  target cfg = Linux ->
  (forall cmd, popen_out w cmd = None) -> dladdr w a = None ->
  loaded st = false -> cmd_fits cfg (global_exe_name st) = true ->
  Z.of_nat (String.length (addr2line_command "" a)) < 4096 ->
  exists st',
    getStackInfo cfg w st a = Done (st', set_address a stack_info_default) /\
    error (data st') = -2 /\ address (data st') = address (data st).
Proof.
  intros Htarget Hpopen Hdl Hl Hfits Hcmd.
  assert (exists st',
             getDataFromGlobalSymbols cfg w st
               (set_address a stack_info_default)
             = Done (st', set_address a stack_info_default) /\
             error (data st') = -2 /\ address (data st') = address (data st))
    as (st' & Hd & Herr & Haddr).
  { unfold getDataFromGlobalSymbols, getSymbols2, getSymbols2_run,
      load_symbols, use_nm.
    rewrite Hl, Htarget, Hfits, Hpopen. cbn. eauto. }
  assert (getFileAndLine cfg w (set_address a stack_info_default)
          = Done (set_address a stack_info_default)) as Hg.
  { unfold getFileAndLine. rewrite Htarget. cbn [object set_address
      stack_info_default find_so String.index address_].
    change (find_so "") with false. cbn iota.
    destruct (Z.ltb_spec
                (Z.of_nat (String.length (addr2line_command "" a)))
                (Z.of_nat buf_size)) as [_|?];
      [|unfold buf_size in *; lia].
    by rewrite Hpopen. }
  exists st'. split; [|done].
  unfold getStackInfo. rewrite Hdl, Hd. cbn [obind]. rewrite Hg. cbn [obind].
  by destruct (gnu_source cfg || _)%bool.
Qed.

Lemma getStackInfo_no_tools_witness :
  exists st',
    getStackInfo linux_build bare_world (initial_state "/bin/app") 4198742
    = Done (st', set_address 4198742 stack_info_default) /\
    error (data st') = -2.
Proof.
  destruct (getStackInfo_no_tools linux_build bare_world
              (initial_state "/bin/app") 4198742)
    as (st' & H & He & _); try reflexivity.
  exists st'. done.
Defined.

(** X21. On Darwin, where the body of [getFileAndLine] is compiled out,
    no frame that [getStackInfo] returns has a file name or a line. *)
Theorem getStackInfo_darwin_no_lines cfg w st a st' info :
  target cfg = Mac ->
  getStackInfo cfg w st a = Done (st', info) ->
  filename info = "" /\ line info = 0.
Proof.
  intros Hmac. unfold getStackInfo.
  assert (forall i, getFileAndLine cfg w i = Done i) as Hid.
  { intros i. unfold getFileAndLine. by rewrite Hmac. }
  rewrite Hmac, orb_true_r.
  destruct (dladdr w a) as [dl|].
  - rewrite Hid. cbn [obind]. intros [= <- <-].
    destruct (use_abi cfg);
      [destruct (cxa_demangle w (dli_sname dl))|];
      destruct (dli_sname dl); done.
  - destruct (getDataFromGlobalSymbols cfg w st
                (set_address a stack_info_default))
      as [[s1 i0]| |] eqn:Hd; [|done..].
    cbn [obind]. rewrite Hid. cbn [obind]. intros [= <- <-].
    apply getDataFromGlobalSymbols_fields in Hd as [-> ->]. done.
Qed.

Lemma getStackInfo_darwin_no_lines_witness :
  exists st' info,
    getStackInfo mac_build
      (quiet_world (line_of "0000000100000f50 T _main"))
      (initial_state "/bin/app") 4294971216 = Done (st', info) /\
    filename info = "" /\ line info = 0.
Proof.
  destruct (getStackInfo mac_build
              (quiet_world (line_of "0000000100000f50 T _main"))
              (initial_state "/bin/app") 4294971216)
    as [[st' info]| |] eqn:H; [|vm_compute in H; discriminate..].
  exists st', info. split; [done|].
  exact (getStackInfo_darwin_no_lines mac_build _ _ _ _ _ eq_refl H).
Defined.
